(** * hraftd: the HTTP front door of the key-value store

    A shallow embedding of [http/service.go] (package [httpd]): the
    dispatcher [ServeHTTP], the three handlers, the two Prometheus
    collectors the key handler feeds, and the life cycle of the listener
    ([New], [Start], [Close], [Addr]).

    State is passed explicitly.  A handler runs against a [World] that
    holds the state of the [Store] behind the service, a log of the calls
    made on it, the two collectors and the [ResponseWriter] of the request.
    Early [return]s and panics are outcomes of a small control monad. *)

From Stdlib Require Import ZArith Ascii String.
From stdpp Require Import base strings list gmap fin_maps pretty.

Local Open Scope string_scope.
Local Open Scope list_scope.
Local Open Scope Z_scope.

(** ** Go strings *)

Module strings.

(** [strings.Split(s, sep)] for a one-byte separator: the substrings of [s]
    between the occurrences of [sep]; a string without [sep] is returned
    alone, and the empty string gives one empty substring. *)
Fixpoint Split1 (sep : ascii) (s : string) : list string :=
  match s with
  | EmptyString => [EmptyString]
  | String c s' =>
      if Ascii.eqb c sep then EmptyString :: Split1 sep s'
      else match Split1 sep s' with
           | h :: t => String c h :: t
           | [] => [String c EmptyString]
           end
  end.

Definition Split (s sep : string) : list string :=
  match sep with
  | String c EmptyString => Split1 c s
  | _ => [s]
  end.

(** [strings.HasPrefix(s, prefix)]. *)
Fixpoint HasPrefix (s prefix : string) : bool :=
  match prefix, s with
  | EmptyString, _ => true
  | String p prefix', String c s' => Ascii.eqb c p && HasPrefix s' prefix'
  | String _ _, EmptyString => false
  end.

End strings.

(** ** HTTP status codes and [fmt.Sprint] on them *)

Definition StatusOK : Z := 200.
Definition StatusBadRequest : Z := 400.
Definition StatusNotFound : Z := 404.
Definition StatusMethodNotAllowed : Z := 405.
Definition StatusInternalServerError : Z := 500.

(** [fmt.Sprint] of an [int]: its decimal digits. *)
Definition Sprint (n : Z) : string := pretty n.

(** ** The response writer

    [http.ResponseWriter] as the server of [net/http] implements it: the
    first [WriteHeader] commits the status code and every later one is
    superfluous and changes nothing; a [Write] before any [WriteHeader]
    commits 200 first; a handler that returns without either is answered
    with 200.  [header_calls] logs every code a handler passed to
    [WriteHeader], committed or not. *)
Record ResponseWriter := mkResponseWriter {
  wroteHeader : bool;
  status : Z;
  written : string;
  header_calls : list Z
}.

Definition newResponse : ResponseWriter :=
  {| wroteHeader := false; status := 0; written := EmptyString; header_calls := [] |}.

Definition rw_WriteHeader (code : Z) (w : ResponseWriter) : ResponseWriter :=
  if wroteHeader w
  then {| wroteHeader := true; status := status w; written := written w;
          header_calls := header_calls w ++ [code] |}
  else {| wroteHeader := true; status := code; written := written w;
          header_calls := header_calls w ++ [code] |}.

Definition rw_WriteString (data : string) (w : ResponseWriter) : ResponseWriter :=
  if wroteHeader w
  then {| wroteHeader := true; status := status w;
          written := written w +:+ data; header_calls := header_calls w |}
  else {| wroteHeader := true; status := StatusOK;
          written := written w +:+ data; header_calls := header_calls w |}.

(** The status code of the response once the handler is done. *)
Definition response_status (w : ResponseWriter) : Z :=
  if wroteHeader w then status w else StatusOK.

(** ** Prometheus collectors

    A metric vector is declared over a list of label names.
    [vec.With(labels)] resolves a label map to the child metric for those
    label values.  As client_golang documents it, [GetMetricWith] returns
    an error when the number and names of the labels are inconsistent with
    the declared ones, and [With] panics where [GetMetricWith] returns an
    error: the map must have as many entries as there are declared names,
    and an entry for each of them.  [With] gives the label values in the
    declared order, or [None] for the panic. *)
Module prometheus.

Definition With (names : list string) (labels : gmap string string)
  : option (list string) :=
  if decide (size labels = length names)
  then mapM (λ n, labels !! n) names
  else None.

End prometheus.

(** [httpRequestsSummary] and [httpErrorsCounter] are declared over these
    label names. *)
Definition httpRequestsSummary_labels : list string := ["endpoint"; "method"].
Definition httpErrorsCounter_labels : list string := ["endpoint"; "method"; "status"].

(** ** Control: fall through, early return, panic *)

Inductive Ctl (A : Type) : Type :=
| Next (a : A)
| Return
| Panic.
Arguments Next {A} a.
Arguments Return {A}.
Arguments Panic {A}.

Definition M (Σ A : Type) : Type := Σ → Ctl A * Σ.

Definition ret {Σ A} (a : A) : M Σ A := λ σ, (Next a, σ).

Definition bind {Σ A B} (m : M Σ A) (k : A → M Σ B) : M Σ B :=
  λ σ, match m σ with
       | (Next a, σ') => k a σ'
       | (Return, σ') => (Return, σ')
       | (Panic, σ') => (Panic, σ')
       end.

Definition return_ {Σ A} : M Σ A := λ σ, (Return, σ).
Definition modify {Σ} (f : Σ → Σ) : M Σ unit := λ σ, (Next tt, f σ).

Declare Scope go_scope.
Delimit Scope go_scope with go.
Notation "'let*' x ':=' m 'in' k" := (bind m (λ x, k))
  (at level 10, x pattern, m at level 100, k at level 200) : go_scope.
Notation "m >> k" := (bind m (λ _, k))
  (at level 65, right associativity) : go_scope.

(** How a handler ends: it returns to the server, or it panics.  What the
    server does with the connection of a handler that panicked is not
    modelled: the world a handler leaves holds what it did to the store,
    the collectors and the response writer up to that point. *)
Inductive Outcome := Returned | Panicked.

Definition outcome_of {A} (c : Ctl A) : Outcome :=
  match c with
  | Panic => Panicked
  | _ => Returned
  end.

(** ** The store interface and the world a handler runs in *)

Inductive StoreCall :=
| CallGet (key : string)
| CallSet (key value : string)
| CallDelete (key : string)
| CallJoin (nodeID addr : string)
| CallStatus.

(** [Set] is a sort in Rocq, hence the prefix on the method names. *)
Record Store (error S : Type) := mkStore {
  Store_Get : string → S → (string * option error) * S;
  Store_Set : string → string → S → option error * S;
  Store_Delete : string → S → option error * S;
  Store_Join : string → string → S → option error * S;
  Store_Status : S → string * S
}.
Arguments Store_Get {error S}.
Arguments Store_Set {error S}.
Arguments Store_Delete {error S}.
Arguments Store_Join {error S}.
Arguments Store_Status {error S}.

(** [store_calls] logs the calls made on the store, oldest first.
    [httpErrorsCounter] holds one entry per [Inc], the label values
    (endpoint, method, status) of the child incremented;
    [httpRequestsSummary] one entry per [Observe], the label values
    (endpoint, method) and the value observed. *)
Record World (S : Type) := mkWorld {
  store_state : S;
  store_calls : list StoreCall;
  httpErrorsCounter : list (list string);
  httpRequestsSummary : list (list string * Z);
  resp : ResponseWriter
}.
Arguments mkWorld {S}.
Arguments store_state {S}.
Arguments store_calls {S}.
Arguments httpErrorsCounter {S}.
Arguments httpRequestsSummary {S}.
Arguments resp {S}.

(** The value of the counter child with label values [lv]. *)
Definition counter_value (lv : list string) (c : list (list string)) : nat :=
  length (filter (λ x, x = lv) c).

(** [*http.Request], as far as the handlers read it. *)
Record Request (B : Type) := mkRequest {
  Method : string;
  URL_Path : string;
  Body : B
}.
Arguments mkRequest {B}.
Arguments Method {B}.
Arguments URL_Path {B}.
Arguments Body {B}.

(** The two readings of [time.Now().UnixNano()] a key request makes: on
    entry and in the deferred closure.  The value observed is their [int64]
    difference; its conversion to [float64] is left out. *)
Record Clock := mkClock { t_entry : Z; t_exit : Z }.

(** [int64] subtraction wraps. *)
Definition wrap64 (z : Z) : Z := (z + 2 ^ 63) mod 2 ^ 64 - 2 ^ 63.

(** ** The service *)

Section Service.

Context {error S B : Type}.

(** The store behind the service ([s.store]). *)
Variable store : Store error S.

(** [encoding/json], as the handlers use it.  [json_Decode body] is
    [json.NewDecoder(body).Decode(&m)] on a fresh [m := map[string]string{}]:
    the map afterwards and the error returned.  [json_Marshal] is
    [json.Marshal] on a [map[string]string]. *)
Variable json_Decode : B → gmap string string * option error.
Variable json_Marshal : gmap string string → string * option error.

(** The order in which [for k, v := range m] visits a map is not
    specified; [range_order] is the order taken. *)
Variable range_order : gmap string string → list (string * string).

Local Open Scope go_scope.

Abbreviation W := (World S).

(** *** Calls on the store *)

Definition after_call (c : StoreCall) (s' : S) (w : W) : W :=
  mkWorld s' (store_calls w ++ [c]) (httpErrorsCounter w)
          (httpRequestsSummary w) (resp w).

Definition store_Get (key : string) : M W (string * option error) :=
  λ w, let '(res, s') := Store_Get store key (store_state w) in
       (Next res, after_call (CallGet key) s' w).

Definition store_Set (key value : string) : M W (option error) :=
  λ w, let '(err, s') := Store_Set store key value (store_state w) in
       (Next err, after_call (CallSet key value) s' w).

Definition store_Delete (key : string) : M W (option error) :=
  λ w, let '(err, s') := Store_Delete store key (store_state w) in
       (Next err, after_call (CallDelete key) s' w).

Definition store_Join (nodeID addr : string) : M W (option error) :=
  λ w, let '(err, s') := Store_Join store nodeID addr (store_state w) in
       (Next err, after_call (CallJoin nodeID addr) s' w).

Definition store_Status : M W string :=
  λ w, let '(st, s') := Store_Status store (store_state w) in
       (Next st, after_call CallStatus s' w).

(** *** Writes on the response *)

Definition with_resp (f : ResponseWriter → ResponseWriter) (w : W) : W :=
  mkWorld (store_state w) (store_calls w) (httpErrorsCounter w)
          (httpRequestsSummary w) (f (resp w)).

Definition WriteHeader (code : Z) : M W unit := modify (with_resp (rw_WriteHeader code)).
Definition WriteString (data : string) : M W unit := modify (with_resp (rw_WriteString data)).

(** *** Updates of the collectors *)

(** [httpErrorsCounter.With(labels).Inc()] *)
Definition httpErrorsCounter_Inc (labels : gmap string string) : M W unit :=
  λ w, match prometheus.With httpErrorsCounter_labels labels with
       | Some lv =>
           (Next tt, mkWorld (store_state w) (store_calls w)
                             (httpErrorsCounter w ++ [lv])
                             (httpRequestsSummary w) (resp w))
       | None => (Panic, w)
       end.

(** [httpRequestsSummary.With(labels).Observe(v)] *)
Definition httpRequestsSummary_Observe (labels : gmap string string) (v : Z)
  : M W unit :=
  λ w, match prometheus.With httpRequestsSummary_labels labels with
       | Some lv =>
           (Next tt, mkWorld (store_state w) (store_calls w)
                             (httpErrorsCounter w)
                             (httpRequestsSummary w ++ [(lv, v)]) (resp w))
       | None => (Panic, w)
       end.

(** *** handleStatus and handleJoin *)

Definition handleStatus (r : Request B) : M W unit :=
  let* st := store_Status in
  WriteString st.

Definition handleJoin (r : Request B) : M W unit :=
  let '(m, err) := json_Decode (Body r) in
  match err with
  | Some _ => WriteHeader StatusBadRequest >> return_
  | None =>
  if negb (size m =? 2)%nat then WriteHeader StatusBadRequest >> return_ else
  match m !! "addr" with
  | None => WriteHeader StatusBadRequest >> return_
  | Some remoteAddr =>
  match m !! "id" with
  | None => WriteHeader StatusBadRequest >> return_
  | Some nodeID =>
  let* err := store_Join nodeID remoteAddr in
  match err with
  | Some _ => WriteHeader StatusInternalServerError >> return_
  | None => ret tt
  end end end end.

(** *** handleKeyRequest

    The frame of a key request: the world and the [labels] map.  The map is
    one object, shared by the body of the handler, which stores a "status"
    entry in it on its error paths, and the deferred closure, which reads
    it when the handler leaves. *)
Abbreviation Frame := (W * gmap string string)%type.

Definition liftW {A} (m : M W A) : M Frame A :=
  λ '(w, labels), let '(c, w') := m w in (c, (w', labels)).

(** [labels[k] = v] *)
Definition labels_store (k v : string) : M Frame unit :=
  modify (λ '(w, labels), (w, <[k := v]> labels)).

(** The three statements every error path of the handler starts with:
    [labels["status"] = fmt.Sprint(code)],
    [httpErrorsCounter.With(labels).Inc()], [w.WriteHeader(code)]. *)
Definition fail (code : Z) : M Frame unit :=
  labels_store "status" (Sprint code) >>
  (λ '(w, labels), liftW (httpErrorsCounter_Inc labels) (w, labels)) >>
  liftW (WriteHeader code).

(** The closure [getKey]. *)
Definition getKey (r : Request B) : string :=
  let parts := strings.Split (URL_Path r) "/" in
  if negb (length parts =? 3)%nat then EmptyString
  else default EmptyString (parts !! 2%nat).

(** The loop of the POST branch over the entries still to visit. *)
Fixpoint set_entries (l : list (string * string)) : M Frame unit :=
  match l with
  | [] => ret tt
  | (k, v) :: l' =>
      let* err := liftW (store_Set k v) in
      match err with
      | Some _ => fail StatusInternalServerError >> return_
      | None => set_entries l'
      end
  end.

(** Every [Store.Set] of the entries [l], made in order from the state [s],
    returns no error, and the store is left in [s']. *)
Inductive sets_succeed : list (string * string) → S → S → Prop :=
| sets_succeed_nil s : sets_succeed [] s s
| sets_succeed_cons k v l s s1 s' :
    Store_Set store k v s = (None, s1) →
    sets_succeed l s1 s' →
    sets_succeed ((k, v) :: l) s s'.

Definition handleKeyRequest_body (r : Request B) : M Frame unit :=
  if String.eqb (Method r) "GET" then
    let k := getKey r in
    (if String.eqb k EmptyString then fail StatusBadRequest else ret tt) >>
    let* (v, err) := liftW (store_Get k) in
    match err with
    | Some _ => fail StatusInternalServerError >> return_
    | None =>
    let '(b, err) := json_Marshal {[ k := v ]} in
    match err with
    | Some _ => fail StatusInternalServerError >> return_
    | None => liftW (WriteString b)
    end end
  else if String.eqb (Method r) "POST" then
    let '(m, err) := json_Decode (Body r) in
    match err with
    | Some _ => fail StatusBadRequest >> return_
    | None => set_entries (range_order m)
    end
  else if String.eqb (Method r) "DELETE" then
    let k := getKey r in
    if String.eqb k EmptyString then fail StatusBadRequest >> return_ else
    let* err := liftW (store_Delete k) in
    match err with
    | Some _ => fail StatusInternalServerError >> return_
    | None => liftW (store_Delete k) >> ret tt
    end
  else
    fail StatusMethodNotAllowed.

(** The handler: the labels map is created, the body runs, and the
    deferred closure observes the latency under the labels map as the body
    left it, whichever way the body ended. *)
Definition handleKeyRequest (r : Request B) (clk : Clock) (w : W) : Outcome * W :=
  let start := t_entry clk in
  let labels : gmap string string :=
    <["endpoint" := "/key"]> (<["method" := Method r]> ∅) in
  let '(c, (w1, labels1)) := handleKeyRequest_body r (w, labels) in
  let '(d, w2) :=
    httpRequestsSummary_Observe labels1 (wrap64 (t_exit clk - start)) w1 in
  (match outcome_of c, outcome_of d with
   | Returned, Returned => Returned
   | _, _ => Panicked
   end, w2).

(** *** ServeHTTP *)

Definition run_handler (m : M W unit) (w : W) : Outcome * W :=
  let '(c, w') := m w in (outcome_of c, w').

Definition ServeHTTP (r : Request B) (clk : Clock) (w : W) : Outcome * W :=
  if strings.HasPrefix (URL_Path r) "/key" then handleKeyRequest r clk w
  else if String.eqb (URL_Path r) "/join" then run_handler (handleJoin r) w
  else if String.eqb (URL_Path r) "/status" then run_handler (handleStatus r) w
  else run_handler (WriteHeader StatusNotFound) w.

End Service.

(** ** The labels map of a key request *)

(** The map as the handler creates it. *)
Definition labels_entry (method : string) : gmap string string :=
  <["endpoint" := "/key"]> (<["method" := method]> ∅).

(** The map once an error path has stored a status in it. *)
Definition labels_failed (method code : string) : gmap string string :=
  <["status" := code]> (labels_entry method).

(** The world after the three statements of an error path of the key
    handler, and after the observation of the deferred closure. *)
Definition failed {S} (method : string) (code : Z) (w : World S) : World S :=
  mkWorld (store_state w) (store_calls w)
          (httpErrorsCounter w ++ [["/key"; method; Sprint code]])
          (httpRequestsSummary w)
          (rw_WriteHeader code (resp w)).

Definition observed {S} (method : string) (clk : Clock) (w : World S) : World S :=
  mkWorld (store_state w) (store_calls w) (httpErrorsCounter w)
          (httpRequestsSummary w
             ++ [(["/key"; method], wrap64 (t_exit clk - t_entry clk))])
          (resp w).

(** The world of a GET when [Store.Get] is called: a GET without a key has
    already taken the three statements of its 400 path. *)
Definition before_Get {S B} (r : Request B) (w : World S) : World S :=
  if String.eqb (getKey r) EmptyString then failed "GET" StatusBadRequest w else w.

(** The calls the POST loop makes for the entries [l], and the world after
    them when the store is left in [s']. *)
Definition calls_Set (l : list (string * string)) : list StoreCall :=
  map (λ e, CallSet e.1 e.2) l.

Definition after_sets {S} (l : list (string * string)) (s' : S) (w : World S)
  : World S :=
  mkWorld s' (store_calls w ++ calls_Set l) (httpErrorsCounter w)
          (httpRequestsSummary w) (resp w).

(** ** The listener: New, Start, Close, Addr *)

(** How a call ends. *)
Inductive Call (A : Type) : Type :=
| Returns (a : A)
| Panics.
Arguments Returns {A} a.
Arguments Panics {A}.

Section Lifecycle.

Context {error Listener NetAddr Net St : Type}.

(** [net.Listen(network, address)] on the network state, and the two
    methods of [net.Listener] the service calls. *)
Variable net_Listen : string → string → Net → (Listener + error) * Net.
Variable Listener_Addr : Listener → NetAddr.
Variable Listener_Close : Listener → Net → option error * Net.

(** [ln] is an interface value: [None] is nil. *)
Record Service := mkService {
  addr : string;
  ln : option Listener;
  store : St
}.

(** What [Start] touches outside the service: the network, the patterns
    registered in [http.DefaultServeMux], and the listeners handed to a
    serving goroutine. *)
Record Process := mkProcess {
  net : Net;
  DefaultServeMux : gset string;
  serving : list Listener
}.

Definition New (addr : string) (store : St) : Service :=
  {| addr := addr; ln := None; store := store |}.

(** [Start].  The listener is stored before [http.Handle] is called, and
    [http.Handle] panics when the pattern is already registered.  The
    goroutine that serves on the listener is only recorded. *)
Definition Start (s : Service) (p : Process) : Call (option error) * Service * Process :=
  match net_Listen "tcp" (addr s) (net p) with
  | (inr err, n) =>
      (Returns (Some err), s, mkProcess n (DefaultServeMux p) (serving p))
  | (inl l, n) =>
      let s' := {| addr := addr s; ln := Some l; store := store s |} in
      if decide ("/" ∈ DefaultServeMux p)
      then (Panics, s', mkProcess n (DefaultServeMux p) (serving p))
      else (Returns None, s',
            mkProcess n ({["/"]} ∪ DefaultServeMux p) (serving p ++ [l]))
  end.


Definition Addr (s : Service) : Call NetAddr :=
  match ln s with
  | None => Panics
  | Some l => Returns (Listener_Addr l)
  end.


End Lifecycle.

(** ** A concrete store, decoder, encoder and network to run the code on *)

Module Demo.

(** The store: a map, a leadership flag and the joined nodes.  Writes and
    joins fail on a node that is not the leader, a write to the key
    "locked" fails, and a read fails on a key that is not there. *)
Record State := mkState {
  kv : gmap string string;
  leader : bool;
  members : list (string * string)
}.

Definition demo_Get (k : string) (s : State) : (string * option string) * State :=
  match kv s !! k with
  | Some v => ((v, None), s)
  | None => ((EmptyString, Some "no such key"), s)
  end.

Definition demo_Set (k v : string) (s : State) : option string * State :=
  if leader s then
    if String.eqb k "locked" then (Some "key is locked", s)
    else (None, mkState (<[k := v]> (kv s)) (leader s) (members s))
  else (Some "not leader", s).

Definition demo_Delete (k : string) (s : State) : option string * State :=
  if leader s then (None, mkState (delete k (kv s)) (leader s) (members s))
  else (Some "not leader", s).

Definition demo_Join (nodeID addr : string) (s : State) : option string * State :=
  if leader s
  then (None, mkState (kv s) (leader s) (members s ++ [(nodeID, addr)]))
  else (Some "not leader", s).

Definition demo_Status (s : State) : string * State :=
  (if leader s then "Leader" else "Follower", s).

Definition demo_store : Store string State :=
  mkStore string State demo_Get demo_Set demo_Delete demo_Join demo_Status.

(** A request body: [None] stands for bytes that are not a JSON object of
    strings, [Some l] for the object with the members [l] in order (a later
    duplicate overrides an earlier one). *)
Definition demo_Decode (b : option (list (string * string)))
  : gmap string string * option string :=
  match b with
  | None => (∅, Some "invalid JSON")
  | Some l => (foldl (λ m e, <[e.1 := e.2]> m) ∅ l, None)
  end.

Definition quote : string := String (ascii_of_nat 34) EmptyString.

(** An encoder of one-entry maps (no escaping) that refuses one value. *)
Definition demo_Marshal (m : gmap string string) : string * option string :=
  match map_to_list m with
  | [(k, v)] =>
      if String.eqb v "unencodable" then (EmptyString, Some "unsupported value")
      else ("{" +:+ quote +:+ k +:+ quote +:+ ":" +:+ quote +:+ v +:+ quote +:+ "}",
            None)
  | _ => ("{}", None)
  end.

(** The encoding of the map with one empty entry under the empty key. *)
Definition enc_empty : string :=
  Eval vm_compute in (demo_Marshal {[ EmptyString := EmptyString ]}).1.

Definition demo_range (m : gmap string string) : list (string * string) :=
  map_to_list m.

Definition world0 (s : State) : World State := mkWorld s [] [] [] newResponse.

Definition leader0 : State := mkState {[ "a" := "1" ]} true [].
Definition follower0 : State := mkState {[ "a" := "1" ]} false [].

Definition serve := ServeHTTP demo_store demo_Decode demo_Marshal demo_range.
Definition key := handleKeyRequest demo_store demo_Decode demo_Marshal demo_range.
Definition clk0 : Clock := mkClock 1000 1750.

Abbreviation Req := (Request (option (list (string * string)))).
Definition get_a : Req := mkRequest "GET" "/key/a" None.
Definition get_no_key : Req := mkRequest "GET" "/key/" None.
Definition put_k : Req := mkRequest "PUT" "/key/k" None.
Definition delete_a : Req := mkRequest "DELETE" "/key/a" None.
Definition post_three : Req :=
  mkRequest "POST" "/key/x" (Some [("x", "1"); ("locked", "2"); ("z", "3")]).
Definition post_join : Req :=
  mkRequest "POST" "/join" (Some [("id", "n1"); ("addr", "h:1")]).
Definition get_unknown : Req := mkRequest "GET" "/unknown" None.

(** The network: the set of bound addresses; a listener is its address. *)
Definition demo_Listen (network address : string) (n : gset string)
  : (string + string) * gset string :=
  if decide (address ∈ n) then (inr "address already in use", n)
  else (inl address, {[address]} ∪ n).

Definition demo_Listener_Addr (l : string) : string := l.


Definition start := Start (St := Store string State) demo_Listen.
Definition process0 : Process (Listener := string) (Net := gset string) :=
  mkProcess ∅ ∅ [].

End Demo.

(** ** Paths and their segments *)

(** The byte [c] occurs in [s] ([strings.IndexByte(s, c) >= 0]). *)
Fixpoint has_byte (c : ascii) (s : string) : bool :=
  match s with
  | EmptyString => false
  | String c' s' => Ascii.eqb c' c || has_byte c s'
  end.

(** The segments put back together with [sep] between them
    ([strings.Join]). *)
Fixpoint join_segments (sep : string) (l : list string) : string :=
  match l with
  | [] => EmptyString
  | [x] => x
  | x :: rest => x +:+ sep +:+ join_segments sep rest
  end.

Definition slash : ascii := ascii_of_nat 47.

(** ** One request after another *)

(** The world the next request runs in: the store and the collectors as
    the last request left them, and a response writer of its own. *)
Definition next_request {S} (w : World S) : World S :=
  mkWorld (store_state w) (store_calls w) (httpErrorsCounter w)
          (httpRequestsSummary w) newResponse.

(** ** metrics.Expose *)

Section Metrics.

Context {error Listener Net : Type}.
Variable net_Listen : string → string → Net → (Listener + error) * Net.

Definition metricsPort : string := ":9100".

(** [Expose] does not return: [http.Handle] panics, or
    [http.ListenAndServe] fails to bind and [log.Fatalf] ends the process,
    or it serves on the listener for good. *)
Inductive Exposed : Type :=
| ExposePanics
| ExposeFatal (err : error)
| ExposeServes (l : Listener).

(** [Expose].  The log line is left out.  [http.Handle] registers the
    pattern /metrics in [http.DefaultServeMux]; [http.ListenAndServe] with
    a nil handler listens on the port and serves that mux. *)
Definition Expose (p : Process (Listener := Listener) (Net := Net))
  : Exposed * Process (Listener := Listener) (Net := Net) :=
  if decide ("/metrics" ∈ DefaultServeMux p) then (ExposePanics, p)
  else
    let mux := {["/metrics"]} ∪ DefaultServeMux p in
    match net_Listen "tcp" metricsPort (net p) with
    | (inr err, n) => (ExposeFatal err, mkProcess n mux (serving p))
    | (inl l, n) => (ExposeServes l, mkProcess n mux (serving p ++ [l]))
    end.

End Metrics.

(** ** More requests to run the code on *)

Module Demo2.

Import Demo.

Definition get_status : Req := mkRequest "GET" "/status" None.
Definition post_b : Req := mkRequest "POST" "/key/ignored" (Some [("b", "2")]).
Definition get_b : Req := mkRequest "GET" "/key/b" None.
Definition post_empty : Req := mkRequest "POST" "/key/" (Some []).
Definition delete_b : Req := mkRequest "DELETE" "/key/b" None.

(** A store whose [Delete] succeeds once and then fails. *)
Definition once_Delete (k : string) (s : State) : option string * State :=
  match kv s !! k with
  | Some _ => (None, mkState (delete k (kv s)) (leader s) (members s))
  | None => (Some "no such key", s)
  end.

Definition once_store : Store string State :=
  mkStore string State demo_Get demo_Set once_Delete demo_Join demo_Status.

Definition expose := Expose (error := string) demo_Listen.

End Demo2.

(** * Properties *)

(** ** What the collectors make of the labels map *)

Section Labels.

Variable method : string.

Lemma labels_failed_again code code' :
  <["status" := code']> (labels_failed method code) = labels_failed method code'.
Proof. unfold labels_failed. apply insert_insert_eq. Qed.

Lemma size_labels_entry : size (labels_entry method) = 2%nat.
Proof.
  unfold labels_entry.
  rewrite map_size_insert_None by (rewrite lookup_insert_ne; done).
  rewrite map_size_insert_None by apply lookup_empty.
  by rewrite map_size_empty.
Qed.

Lemma size_labels_failed code : size (labels_failed method code) = 3%nat.
Proof.
  unfold labels_failed.
  rewrite map_size_insert_None; [by rewrite size_labels_entry|].
  unfold labels_entry. by rewrite !lookup_insert_ne.
Qed.

(** The summary accepts the map of the entry. *)
Lemma With_summary_entry :
  prometheus.With httpRequestsSummary_labels (labels_entry method)
  = Some ["/key"; method].
Proof.
  unfold prometheus.With. rewrite size_labels_entry. simpl.
  unfold labels_entry. by simplify_map_eq.
Qed.

(** It rejects the map once a status is in it: three entries for two
    declared names. *)
Lemma With_summary_failed code :
  prometheus.With httpRequestsSummary_labels (labels_failed method code) = None.
Proof. unfold prometheus.With. rewrite size_labels_failed. done. Qed.

(** The counter accepts exactly that map. *)
Lemma With_counter_failed code :
  prometheus.With httpErrorsCounter_labels (labels_failed method code)
  = Some ["/key"; method; code].
Proof.
  unfold prometheus.With. rewrite size_labels_failed. simpl.
  unfold labels_failed, labels_entry. by simplify_map_eq.
Qed.

End Labels.

(** ** The handlers *)

Section Facts.

Context {error S B : Type}.
Variable store : Store error S.
Variable json_Decode : B → gmap string string * option error.
Variable json_Marshal : gmap string string → string * option error.
Variable range_order : gmap string string → list (string * string).

(** [range] visits every entry of the map once. *)
Hypothesis range_order_perm : ∀ m, range_order m ≡ₚ map_to_list m.

Local Abbreviation handleKey :=
  (handleKeyRequest store json_Decode json_Marshal range_order).
Local Abbreviation keyBody :=
  (handleKeyRequest_body store json_Decode json_Marshal range_order).
Local Abbreviation serveHTTP :=
  (ServeHTTP store json_Decode json_Marshal range_order).

Lemma fail_entry method code (w : World S) :
  fail code (w, labels_entry method)
  = (Next tt, (failed method code w, labels_failed method (Sprint code))).
Proof.
  unfold fail, bind, labels_store, modify, liftW, httpErrorsCounter_Inc. simpl.
  fold (labels_failed method (Sprint code)).
  rewrite With_counter_failed. reflexivity.
Qed.

Lemma fail_failed method c code (w : World S) :
  fail code (w, labels_failed method c)
  = (Next tt, (failed method code w, labels_failed method (Sprint code))).
Proof.
  unfold fail, bind, labels_store, modify, liftW, httpErrorsCounter_Inc. simpl.
  rewrite labels_failed_again, With_counter_failed. reflexivity.
Qed.

(** How the handler ends, from how its body ends. *)
Lemma handleKey_entry r clk (w : World S) c w1 :
  keyBody r (w, labels_entry (Method r)) = (c, (w1, labels_entry (Method r))) →
  c ≠ Panic →
  handleKey r clk w = (Returned, observed (Method r) clk w1).
Proof.
  intros Hb Hc. unfold handleKeyRequest.
  fold (labels_entry (Method r)). rewrite Hb.
  unfold httpRequestsSummary_Observe. rewrite With_summary_entry.
  destruct c; done.
Qed.

Lemma handleKey_failed r clk (w : World S) c w1 code :
  keyBody r (w, labels_entry (Method r)) = (c, (w1, labels_failed (Method r) code)) →
  handleKey r clk w = (Panicked, w1).
Proof.
  intros Hb. unfold handleKeyRequest.
  fold (labels_entry (Method r)). rewrite Hb.
  unfold httpRequestsSummary_Observe. rewrite With_summary_failed.
  destruct c; done.
Qed.

(** *** The key prefix *)

Lemma HasPrefix_spec s prefix :
  strings.HasPrefix s prefix = true ↔ ∃ rest, s = prefix +:+ rest.
Proof.
  revert s. induction prefix as [|c prefix IH]; intros s; simpl.
  - split; [by exists s|by destruct s].
  - destruct s as [|c' s].
    + split; [done|]. intros [rest Hrest]. discriminate.
    + simpl. rewrite andb_true_iff, Ascii.eqb_eq, IH. split.
      * intros [-> [rest ->]]. eauto.
      * intros [rest Hrest]. injection Hrest as -> ->. eauto.
Qed.

Lemma ServeHTTP_key r clk (w : World S) :
  (∃ rest, URL_Path r = "/key" +:+ rest) →
  serveHTTP r clk w = handleKey r clk w.
Proof.
  intros H. apply HasPrefix_spec in H. unfold ServeHTTP. by rewrite H.
Qed.

(** *** Methods other than GET, POST and DELETE *)

Lemma handleKey_other r clk (w : World S) :
  Method r ≠ "GET" → Method r ≠ "POST" → Method r ≠ "DELETE" →
  handleKey r clk w = (Panicked, failed (Method r) StatusMethodNotAllowed w).
Proof.
  intros HG HP HD.
  apply handleKey_failed with (c := Next tt) (code := Sprint StatusMethodNotAllowed).
  unfold handleKeyRequest_body.
  apply String.eqb_neq in HG, HP, HD. rewrite HG, HP, HD.
  apply fail_entry.
Qed.



(** *** GET *)

Ltac key_steps :=
  repeat first
    [ rewrite fail_entry
    | rewrite fail_failed
    | progress (unfold bind, liftW, return_, ret, modify,
                store_Get, store_Set, store_Delete; simpl) ].

Lemma handleKey_GET_Get_error r clk (w : World S) v e s1 :
  Method r = "GET" →
  Store_Get store (getKey r) (store_state w) = ((v, Some e), s1) →
  handleKey r clk w
  = (Panicked,
     failed "GET" StatusInternalServerError
            (after_call (CallGet (getKey r)) s1 (before_Get r w))).
Proof.
  destruct r as [m p b]. simpl. intros -> HG.
  apply handleKey_failed
    with (c := Return) (code := Sprint StatusInternalServerError).
  unfold handleKeyRequest_body, before_Get. simpl.
  destruct (String.eqb _ EmptyString); key_steps; rewrite HG; key_steps;
    reflexivity.
Qed.

Lemma handleKey_GET_Marshal_error r clk (w : World S) v s1 b e :
  Method r = "GET" →
  Store_Get store (getKey r) (store_state w) = ((v, None), s1) →
  json_Marshal {[ getKey r := v ]} = (b, Some e) →
  handleKey r clk w
  = (Panicked,
     failed "GET" StatusInternalServerError
            (after_call (CallGet (getKey r)) s1 (before_Get r w))).
Proof.
  destruct r as [m p body]. simpl. intros -> HG HM.
  apply handleKey_failed
    with (c := Return) (code := Sprint StatusInternalServerError).
  unfold handleKeyRequest_body, before_Get. simpl.
  destruct (String.eqb _ EmptyString); key_steps; rewrite HG; key_steps;
    rewrite HM; key_steps; reflexivity.
Qed.

Lemma handleKey_GET_no_key_ok r clk (w : World S) v s1 b :
  Method r = "GET" →
  getKey r = EmptyString →
  Store_Get store EmptyString (store_state w) = ((v, None), s1) →
  json_Marshal {[ EmptyString := v ]} = (b, None) →
  handleKey r clk w
  = (Panicked,
     with_resp (rw_WriteString b)
       (after_call (CallGet EmptyString) s1 (failed "GET" StatusBadRequest w))).
Proof.
  destruct r as [m p body]. simpl. intros -> Hk HG HM.
  apply handleKey_failed with (c := Next tt) (code := Sprint StatusBadRequest).
  unfold handleKeyRequest_body. simpl. rewrite Hk. simpl.
  key_steps; rewrite HG; key_steps; rewrite HM; key_steps; reflexivity.
Qed.

Lemma handleKey_GET_key_ok r clk (w : World S) v s1 b :
  Method r = "GET" →
  getKey r ≠ EmptyString →
  Store_Get store (getKey r) (store_state w) = ((v, None), s1) →
  json_Marshal {[ getKey r := v ]} = (b, None) →
  handleKey r clk w
  = (Returned,
     observed "GET" clk
       (with_resp (rw_WriteString b) (after_call (CallGet (getKey r)) s1 w))).
Proof.
  destruct r as [m p body]. simpl. intros -> Hk HG HM.
  apply handleKey_entry with (c := Next tt); [|done].
  unfold handleKeyRequest_body. simpl.
  apply String.eqb_neq in Hk. rewrite Hk.
  key_steps; rewrite HG; key_steps; rewrite HM; key_steps; reflexivity.
Qed.


Ltac no_error :=
  match goal with
  | H : _ ∨ _ |- _ => by destruct H as [?|[_ ?]]
  end.


Lemma handleKey_GET_no_key r clk (w : World S) v err s1 b merr :
  Method r = "GET" →
  getKey r = EmptyString →
  Store_Get store EmptyString (store_state w) = ((v, err), s1) →
  json_Marshal {[ EmptyString := v ]} = (b, merr) →
  let at_Get := after_call (CallGet EmptyString) s1 (failed "GET" StatusBadRequest w) in
  handleKey r clk w
  = (Panicked,
     match err, merr with
     | None, None => with_resp (rw_WriteString b) at_Get
     | _, _ => failed "GET" StatusInternalServerError at_Get
     end).
Proof.
  intros HM Hk HG HJ at_Get. subst at_Get.
  destruct err as [e|]; [|destruct merr as [e|]].
  - rewrite <- Hk in HG.
    rewrite (handleKey_GET_Get_error r clk w v e s1 HM HG).
    unfold before_Get. by rewrite Hk.
  - rewrite <- Hk in HG, HJ.
    rewrite (handleKey_GET_Marshal_error r clk w v s1 b e HM HG HJ).
    unfold before_Get. by rewrite Hk.
  - by rewrite (handleKey_GET_no_key_ok r clk w v s1 b HM Hk HG HJ).
Qed.


(** C9. A GET without a key on which [Store.Get] or the encoder fails
    increments the error counter twice: the child (/key, GET, 400) and then
    the child (/key, GET, 500).  One request, two increments. *)
Theorem key_GET_no_key_counted_twice r clk (w : World S) v err s1 b merr :
  Method r = "GET" →
  getKey r = EmptyString →
  Store_Get store EmptyString (store_state w) = ((v, err), s1) →
  json_Marshal {[ EmptyString := v ]} = (b, merr) →
  err ≠ None ∨ (err = None ∧ merr ≠ None) →
  let w' := (handleKey r clk w).2 in
  httpErrorsCounter w'
  = httpErrorsCounter w ++ [["/key"; "GET"; "400"]; ["/key"; "GET"; "500"]] ∧
  length (httpErrorsCounter w') = (length (httpErrorsCounter w) + 2)%nat ∧
  counter_value ["/key"; "GET"; "400"] (httpErrorsCounter w')
  = Datatypes.S (counter_value ["/key"; "GET"; "400"] (httpErrorsCounter w)) ∧
  counter_value ["/key"; "GET"; "500"] (httpErrorsCounter w')
  = Datatypes.S (counter_value ["/key"; "GET"; "500"] (httpErrorsCounter w)).
Proof.
  intros HM Hk HG HJ Herr w'. subst w'.
  rewrite (handleKey_GET_no_key r clk w v err s1 b merr HM Hk HG HJ).
  assert (∀ c : list (list string),
            c ++ [["/key"; "GET"; "400"]; ["/key"; "GET"; "500"]]
            = c ++ [["/key"; "GET"; "400"]; ["/key"; "GET"; "500"]] ∧
            length (c ++ [["/key"; "GET"; "400"]; ["/key"; "GET"; "500"]])
            = (length c + 2)%nat ∧
            counter_value ["/key"; "GET"; "400"]
              (c ++ [["/key"; "GET"; "400"]; ["/key"; "GET"; "500"]])
            = Datatypes.S (counter_value ["/key"; "GET"; "400"] c) ∧
            counter_value ["/key"; "GET"; "500"]
              (c ++ [["/key"; "GET"; "400"]; ["/key"; "GET"; "500"]])
            = Datatypes.S (counter_value ["/key"; "GET"; "500"] c)) as Hcount.
  { intros c. split; [done|]. split; [rewrite length_app; simpl; lia|].
    unfold counter_value. rewrite !filter_app, !length_app. split.
    - rewrite filter_cons_True by done. rewrite filter_cons_False by done.
      simpl. lia.
    - rewrite filter_cons_False by done. rewrite filter_cons_True by done.
      simpl. lia. }
  destruct err as [e|]; [|destruct merr as [e|]]; simpl;
    rewrite <- ?app_assoc; simpl; try apply Hcount; no_error.
Qed.

(** *** DELETE *)

Lemma handleKey_DELETE_no_key r clk (w : World S) :
  Method r = "DELETE" →
  getKey r = EmptyString →
  handleKey r clk w = (Panicked, failed "DELETE" StatusBadRequest w).
Proof.
  destruct r as [m p body]. simpl. intros -> Hk.
  apply handleKey_failed with (c := Return) (code := Sprint StatusBadRequest).
  unfold handleKeyRequest_body. simpl. rewrite Hk. simpl.
  key_steps. reflexivity.
Qed.

Lemma handleKey_DELETE_error r clk (w : World S) e s1 :
  Method r = "DELETE" →
  getKey r ≠ EmptyString →
  Store_Delete store (getKey r) (store_state w) = (Some e, s1) →
  handleKey r clk w
  = (Panicked,
     failed "DELETE" StatusInternalServerError
            (after_call (CallDelete (getKey r)) s1 w)).
Proof.
  destruct r as [m p body]. simpl. intros -> Hk HD.
  apply handleKey_failed
    with (c := Return) (code := Sprint StatusInternalServerError).
  unfold handleKeyRequest_body. simpl.
  apply String.eqb_neq in Hk. rewrite Hk.
  key_steps. rewrite HD. key_steps. reflexivity.
Qed.

(** When the first [Store.Delete] returns no error the handler calls it a
    second time and drops what it returns. *)
Lemma handleKey_DELETE_ok r clk (w : World S) s1 err2 s2 :
  Method r = "DELETE" →
  getKey r ≠ EmptyString →
  Store_Delete store (getKey r) (store_state w) = (None, s1) →
  Store_Delete store (getKey r) s1 = (err2, s2) →
  handleKey r clk w
  = (Returned,
     observed "DELETE" clk
       (after_call (CallDelete (getKey r)) s2
          (after_call (CallDelete (getKey r)) s1 w))).
Proof.
  destruct r as [m p body]. simpl. intros -> Hk HD HD2.
  apply handleKey_entry with (c := Next tt); [|done].
  unfold handleKeyRequest_body. simpl.
  apply String.eqb_neq in Hk. rewrite Hk.
  key_steps. rewrite HD. key_steps. rewrite HD2. reflexivity.
Qed.

(** *** POST *)

(** The entries either all go through, or there is a first one the store
    refuses. *)
Lemma sets_total l (s : S) :
  (∃ s', sets_succeed store l s s')
  ∨ (∃ ok k v rest e s1 s2,
        l = ok ++ (k, v) :: rest ∧
        sets_succeed store ok s s1 ∧
        Store_Set store k v s1 = (Some e, s2)).
Proof.
  revert s. induction l as [|[k v] l IH]; intros s.
  - left. exists s. constructor.
  - destruct (Store_Set store k v s) as [[e|] s1] eqn:HS.
    + right. exists [], k, v, l, e, s, s1. repeat split; [constructor|done].
    + destruct (IH s1)
        as [(s' & Hok)|(ok & k' & v' & rest & e & s2 & s3 & -> & Hok & Hbad)].
      * left. exists s'. by econstructor.
      * right. exists ((k, v) :: ok), k', v', rest, e, s2, s3.
        repeat split; [by econstructor|done].
Qed.

Lemma set_entries_ok method l (w : World S) s' :
  sets_succeed store l (store_state w) s' →
  set_entries store l (w, labels_entry method)
  = (Next tt, (after_sets l s' w, labels_entry method)).
Proof.
  revert w. induction l as [|[k v] l IH]; intros w Hok; inversion Hok; subst.
  - unfold after_sets, calls_Set. simpl. rewrite app_nil_r. by destruct w.
  - simpl. key_steps.
    match goal with H : Store_Set _ _ _ _ = _ |- _ => rewrite H end.
    rewrite (IH (after_call (CallSet k v) s1 w)) by done.
    unfold after_sets, after_call, calls_Set. simpl. by rewrite <- app_assoc.
Qed.

Lemma set_entries_fail method ok k v rest e s1 s2 (w : World S) :
  sets_succeed store ok (store_state w) s1 →
  Store_Set store k v s1 = (Some e, s2) →
  set_entries store (ok ++ (k, v) :: rest) (w, labels_entry method)
  = (Return,
     (failed method StatusInternalServerError
             (after_sets (ok ++ [(k, v)]) s2 w),
      labels_failed method (Sprint StatusInternalServerError))).
Proof.
  revert w. induction ok as [|[k0 v0] ok IH]; intros w Hok Hbad;
    inversion Hok; subst.
  - simpl. key_steps. rewrite Hbad. key_steps. reflexivity.
  - simpl. key_steps.
    match goal with H : Store_Set _ k0 v0 _ = _ |- _ => rewrite H end.
    rewrite (IH (after_call (CallSet k0 v0) s0 w)) by done.
    unfold after_sets, after_call, calls_Set. simpl. by rewrite <- app_assoc.
Qed.

Lemma handleKey_POST_Decode_error r clk (w : World S) m e :
  Method r = "POST" →
  json_Decode (Body r) = (m, Some e) →
  handleKey r clk w = (Panicked, failed "POST" StatusBadRequest w).
Proof.
  destruct r as [mt p body]. simpl. intros -> HD.
  apply handleKey_failed with (c := Return) (code := Sprint StatusBadRequest).
  unfold handleKeyRequest_body. simpl. rewrite HD.
  key_steps. reflexivity.
Qed.

Lemma handleKey_POST_all_set r clk (w : World S) m s' :
  Method r = "POST" →
  json_Decode (Body r) = (m, None) →
  sets_succeed store (range_order m) (store_state w) s' →
  handleKey r clk w
  = (Returned, observed "POST" clk (after_sets (range_order m) s' w)).
Proof.
  destruct r as [mt p body]. simpl. intros -> HD Hok.
  apply handleKey_entry with (c := Next tt); [|done].
  unfold handleKeyRequest_body. simpl. rewrite HD.
  by apply set_entries_ok.
Qed.

Lemma handleKey_POST_Set_error r clk (w : World S) m ok k v rest e s1 s2 :
  Method r = "POST" →
  json_Decode (Body r) = (m, None) →
  range_order m = ok ++ (k, v) :: rest →
  sets_succeed store ok (store_state w) s1 →
  Store_Set store k v s1 = (Some e, s2) →
  handleKey r clk w
  = (Panicked,
     failed "POST" StatusInternalServerError
            (after_sets (ok ++ [(k, v)]) s2 w)).
Proof.
  destruct r as [mt p body]. simpl. intros -> HD Hl Hok Hbad.
  apply handleKey_failed
    with (c := Return) (code := Sprint StatusInternalServerError).
  unfold handleKeyRequest_body. simpl. rewrite HD, Hl.
  by eapply set_entries_fail.
Qed.



(** *** Routing *)

Lemma ServeHTTP_join r clk (w : World S) :
  URL_Path r = "/join" →
  serveHTTP r clk w = run_handler (handleJoin store json_Decode r) w.
Proof. intros H. unfold ServeHTTP. by rewrite H. Qed.

Lemma ServeHTTP_status r clk (w : World S) :
  URL_Path r = "/status" →
  serveHTTP r clk w = run_handler (handleStatus store r) w.
Proof. intros H. unfold ServeHTTP. by rewrite H. Qed.

Lemma ServeHTTP_not_found r clk (w : World S) :
  ¬ (∃ rest, URL_Path r = "/key" +:+ rest) →
  URL_Path r ≠ "/join" →
  URL_Path r ≠ "/status" →
  serveHTTP r clk w = (Returned, with_resp (rw_WriteHeader StatusNotFound) w).
Proof.
  intros Hk Hj Hs. unfold ServeHTTP.
  destruct (strings.HasPrefix (URL_Path r) "/key") eqn:Hp.
  - apply HasPrefix_spec in Hp. done.
  - apply String.eqb_neq in Hj, Hs. by rewrite Hj, Hs.
Qed.

(** C4. The dispatcher.  A path that starts with /key, /keyfoo and /key
    among them, goes to the key handler; the path /join to the join
    handler; the path /status to the status handler; every other path is
    answered 404, and the store and the two collectors are left as they
    were. *)
Theorem ServeHTTP_routes r clk (w : World S) :
  ((∃ rest, URL_Path r = "/key" +:+ rest) →
     serveHTTP r clk w = handleKey r clk w) ∧
  (URL_Path r = "/keyfoo" ∨ URL_Path r = "/key" →
     serveHTTP r clk w = handleKey r clk w) ∧
  (URL_Path r = "/join" →
     serveHTTP r clk w = run_handler (handleJoin store json_Decode r) w) ∧
  (URL_Path r = "/status" →
     serveHTTP r clk w = run_handler (handleStatus store r) w) ∧
  (¬ (∃ rest, URL_Path r = "/key" +:+ rest) →
   URL_Path r ≠ "/join" →
   URL_Path r ≠ "/status" →
   resp w = newResponse →
   let w' := (serveHTTP r clk w).2 in
   (serveHTTP r clk w).1 = Returned ∧
   response_status (resp w') = StatusNotFound ∧
   written (resp w') = EmptyString ∧
   store_calls w' = store_calls w ∧
   store_state w' = store_state w ∧
   httpErrorsCounter w' = httpErrorsCounter w ∧
   httpRequestsSummary w' = httpRequestsSummary w).
Proof.
  split; [apply ServeHTTP_key|].
  split.
  { intros [H|H]; apply ServeHTTP_key; rewrite H;
      [by exists "foo" | by exists EmptyString]. }
  split; [apply ServeHTTP_join|].
  split; [apply ServeHTTP_status|].
  intros Hk Hj Hs Hw. rewrite ServeHTTP_not_found by done. simpl.
  by rewrite Hw.
Qed.

(** *** Join *)

(** C3. A request on /join.  When the body does not decode, or the map
    decoded has not exactly two entries, or has no "addr" entry or no "id"
    entry, the response status is 400 and the store is not called.
    Otherwise [Store.Join] is called once, with the id and the address,
    and the response is 500 when it returns an error and 200 with an empty
    body when it does not. *)
Theorem join_request r clk (w : World S) m derr :
  URL_Path r = "/join" →
  resp w = newResponse →
  json_Decode (Body r) = (m, derr) →
  let w' := (serveHTTP r clk w).2 in
  (derr ≠ None ∨ size m ≠ 2%nat ∨ m !! "addr" = None ∨ m !! "id" = None →
     response_status (resp w') = StatusBadRequest ∧
     written (resp w') = EmptyString ∧
     store_calls w' = store_calls w ∧
     store_state w' = store_state w) ∧
  (∀ remoteAddr nodeID jerr s1,
     derr = None → size m = 2%nat →
     m !! "addr" = Some remoteAddr → m !! "id" = Some nodeID →
     Store_Join store nodeID remoteAddr (store_state w) = (jerr, s1) →
     store_calls w' = store_calls w ++ [CallJoin nodeID remoteAddr] ∧
     store_state w' = s1 ∧
     written (resp w') = EmptyString ∧
     (jerr ≠ None → response_status (resp w') = StatusInternalServerError) ∧
     (jerr = None → response_status (resp w') = StatusOK)).
Proof.
  intros Hp Hw HD w'. subst w'. rewrite ServeHTTP_join by done.
  unfold run_handler, handleJoin. rewrite HD. split.
  - intros Hbad. destruct derr as [e|]; [by simpl; rewrite Hw|].
    destruct (Nat.eqb_spec (size m) 2) as [Hsz|Hsz]; simpl;
      [|by rewrite Hw].
    destruct (m !! "addr") as [a|] eqn:Ha; [|by simpl; rewrite Hw].
    destruct (m !! "id") as [i|] eqn:Hi; [|by simpl; rewrite Hw].
    by destruct Hbad as [?|[?|[?|?]]].
  - intros a i jerr s1 -> Hsz Ha Hi HJ.
    rewrite Hsz, Ha, Hi. simpl.
    unfold bind, store_Join. rewrite HJ.
    destruct jerr as [e|]; simpl; by rewrite Hw.
Qed.

(** *** Every way a key request ends *)

Ltac took_error :=
  eexists _, _, _; split; [reflexivity|];
  simpl; rewrite <- ?app_assoc; simpl; split; reflexivity.

(** Either no error path was taken, the handler returns and the latency
    is observed under (/key, method); or an error path stored a status in
    the labels map, the error counter grew, and the deferred
    [httpRequestsSummary.With(labels)] panics on the three-entry map, so
    that nothing is observed. *)
Lemma handleKey_cases r clk (w : World S) :
  (∃ w1, handleKey r clk w = (Returned, observed (Method r) clk w1) ∧
         httpErrorsCounter w1 = httpErrorsCounter w ∧
         httpRequestsSummary w1 = httpRequestsSummary w)
  ∨ (∃ w1 x more,
        handleKey r clk w = (Panicked, w1) ∧
        httpErrorsCounter w1 = httpErrorsCounter w ++ x :: more ∧
        httpRequestsSummary w1 = httpRequestsSummary w).
Proof.
  destruct (String.eqb_spec (Method r) "GET") as [HG|HG];
    [|destruct (String.eqb_spec (Method r) "POST") as [HP|HP];
      [|destruct (String.eqb_spec (Method r) "DELETE") as [HD|HD]]].
  - destruct (Store_Get store (getKey r) (store_state w)) as [[v [e|]] s1] eqn:Hget.
    + right. rewrite (handleKey_GET_Get_error r clk w v e s1 HG Hget).
      unfold before_Get. destruct (String.eqb _ EmptyString); took_error.
    + destruct (json_Marshal {[ getKey r := v ]}) as [b [e|]] eqn:Hm.
      * right. rewrite (handleKey_GET_Marshal_error r clk w v s1 b e HG Hget Hm).
        unfold before_Get. destruct (String.eqb _ EmptyString); took_error.
      * destruct (decide (getKey r = EmptyString)) as [Hk|Hk].
        -- right. rewrite Hk in Hget, Hm.
           rewrite (handleKey_GET_no_key_ok r clk w v s1 b HG Hk Hget Hm).
           took_error.
        -- left. rewrite (handleKey_GET_key_ok r clk w v s1 b HG Hk Hget Hm).
           rewrite HG. eauto.
  - destruct (json_Decode (Body r)) as [m [e|]] eqn:Hdec.
    + right. rewrite (handleKey_POST_Decode_error r clk w m e HP Hdec).
      took_error.
    + destruct (sets_total (range_order m) (store_state w))
        as [(s' & Hok)|(ok & k & v & rest & e & s1 & s2 & Hl & Hok & Hbad)].
      * left. rewrite (handleKey_POST_all_set r clk w m s' HP Hdec Hok).
        rewrite HP. eauto.
      * right.
        rewrite (handleKey_POST_Set_error r clk w m ok k v rest e s1 s2
                   HP Hdec Hl Hok Hbad).
        took_error.
  - destruct (decide (getKey r = EmptyString)) as [Hk|Hk].
    + right. rewrite (handleKey_DELETE_no_key r clk w HD Hk). took_error.
    + destruct (Store_Delete store (getKey r) (store_state w)) as [[e|] s1] eqn:Hdel.
      * right. rewrite (handleKey_DELETE_error r clk w e s1 HD Hk Hdel).
        took_error.
      * destruct (Store_Delete store (getKey r) s1) as [err2 s2] eqn:Hdel2.
        left. rewrite (handleKey_DELETE_ok r clk w s1 err2 s2 HD Hk Hdel Hdel2).
        rewrite HD. eauto.
  - right. rewrite (handleKey_other r clk w HG HP HD). took_error.
Qed.

Lemma app_cons_neq {A} (l : list A) x more : l ++ x :: more ≠ l.
Proof.
  intros H. apply (f_equal length) in H. rewrite length_app in H.
  simpl in H. lia.
Qed.

Lemma handleKey_observation r clk (w : World S) :
  let o := (handleKey r clk w).1 in
  let w' := (handleKey r clk w).2 in
  (httpErrorsCounter w' = httpErrorsCounter w →
     o = Returned ∧
     httpRequestsSummary w'
     = httpRequestsSummary w
         ++ [(["/key"; Method r], wrap64 (t_exit clk - t_entry clk))]) ∧
  (httpErrorsCounter w' ≠ httpErrorsCounter w →
     o = Panicked ∧ httpRequestsSummary w' = httpRequestsSummary w).
Proof.
  destruct (handleKey_cases r clk w)
    as [(w1 & -> & He & Hs)|(w1 & x & more & -> & He & Hs)]; simpl.
  - split; [|by rewrite He]. intros _. by rewrite Hs.
  - split; [|done]. rewrite He. intros H. by apply app_cons_neq in H.
Qed.

(** The DELETE branch in full. *)
Lemma key_DELETE r clk (w : World S) err s1 err2 s2 :
  Method r = "DELETE" →
  resp w = newResponse →
  Store_Delete store (getKey r) (store_state w) = (err, s1) →
  Store_Delete store (getKey r) s1 = (err2, s2) →
  let w' := (handleKey r clk w).2 in
  (getKey r = EmptyString →
     response_status (resp w') = StatusBadRequest ∧
     store_calls w' = store_calls w ∧ store_state w' = store_state w) ∧
  (getKey r ≠ EmptyString → err ≠ None →
     response_status (resp w') = StatusInternalServerError ∧
     store_calls w' = store_calls w ++ [CallDelete (getKey r)] ∧
     store_state w' = s1) ∧
  (getKey r ≠ EmptyString → err = None →
     response_status (resp w') = StatusOK ∧
     written (resp w') = EmptyString ∧
     store_calls w'
     = store_calls w ++ [CallDelete (getKey r); CallDelete (getKey r)] ∧
     store_state w' = s2).
Proof.
  intros HM Hw HD HD2 w'. subst w'. split; [|split].
  - intros Hk. rewrite (handleKey_DELETE_no_key r clk w HM Hk). simpl.
    by rewrite Hw.
  - intros Hk Herr. destruct err as [e|]; [|done].
    rewrite (handleKey_DELETE_error r clk w e s1 HM Hk HD). simpl.
    by rewrite Hw.
  - intros Hk ->.
    rewrite (handleKey_DELETE_ok r clk w s1 err2 s2 HM Hk HD HD2). simpl.
    rewrite Hw, <- app_assoc. done.
Qed.

End Facts.

(** ** The listener *)

Section LifecycleFacts.

Context {error Listener NetAddr Net St : Type}.
Variable net_Listen : string → string → Net → (Listener + error) * Net.
Variable Listener_Addr : Listener → NetAddr.
Variable Listener_Close : Listener → Net → option error * Net.

Local Abbreviation Svc := (Service (Listener := Listener) (St := St)).



(** A [Start] that binds a listener and then finds the pattern "/" taken
    panics with the listener already stored. *)
Lemma Start_panics_after_bind (s : Svc) p l n :
  net_Listen "tcp" (addr s) (net p) = (inl l, n) →
  "/" ∈ DefaultServeMux p →
  (Start net_Listen s p).1.1 = Panics ∧ ln (Start net_Listen s p).1.2 = Some l.
Proof.
  intros HL Hin. unfold Start. rewrite HL.
  by rewrite decide_True.
Qed.



End LifecycleFacts.

(** ** The code run on concrete requests *)

Section Runs.

Import Demo.

Local Abbreviation w0 := (world0 leader0).

(** A GET for a key that is there: 200, the encoded pair as the body, one
    latency observation. *)
Example run_get_a :
  (key get_a clk0 w0).1 = Returned ∧
  response_status (resp (key get_a clk0 w0).2) = StatusOK ∧
  store_calls (key get_a clk0 w0).2 = [CallGet "a"] ∧
  httpRequestsSummary (key get_a clk0 w0).2 = [(["/key"; "GET"], 750)].
Proof. vm_compute. done. Qed.




Lemma key_GET_no_key_counted_twice_witness :
  httpErrorsCounter (key get_no_key clk0 w0).2
  = [["/key"; "GET"; "400"]; ["/key"; "GET"; "500"]].
Proof.
  apply (key_GET_no_key_counted_twice demo_store demo_Decode demo_Marshal demo_range
           get_no_key clk0 w0
           EmptyString (Some "no such key") leader0
           enc_empty None
           eq_refl eq_refl eq_refl ltac:(vm_compute; reflexivity)).
  left. discriminate.
Defined.


(** A GET of /key on a store that has a value under the empty key: the
    value is encoded and written as the body of a 400 response. *)
Example run_get_empty_key_found :
  getKey (mkRequest "GET" "/key" (None : option (list (string * string))))
  = EmptyString ∧
  resp (key (mkRequest "GET" "/key" None) clk0
            (world0 (mkState {[ EmptyString := "e" ]} true []))).2
  = mkResponseWriter true StatusBadRequest
      (demo_Marshal {[ EmptyString := "e" ]}).1 [StatusBadRequest].
Proof. vm_compute. done. Qed.

(** A DELETE without a key: 400 and no call on the store. *)
Example run_delete_no_key :
  response_status
    (resp (key (mkRequest "DELETE" "/key/" None) clk0 w0).2) = StatusBadRequest ∧
  store_calls (key (mkRequest "DELETE" "/key/" None) clk0 w0).2 = [].
Proof. vm_compute. done. Qed.

(** A join on a node that is not the leader: one call, 500. *)
Example run_join_follower :
  store_calls (serve post_join clk0 (world0 follower0)).2
  = [CallJoin "n1" "h:1"] ∧
  response_status (resp (serve post_join clk0 (world0 follower0)).2)
  = StatusInternalServerError.
Proof. vm_compute. done. Qed.

(** A PUT: the handler panics in its deferred closure and the summary
    stays empty. *)
Example run_put_k :
  key put_k clk0 w0
  = (Panicked,
     mkWorld leader0 [] [["/key"; "PUT"; "405"]] []
             (mkResponseWriter true StatusMethodNotAllowed EmptyString
                               [StatusMethodNotAllowed])).
Proof. vm_compute. reflexivity. Qed.

(** C7, on the code: a PUT on /key/k is one key request, it stores
    "status" in the labels map the deferred closure reads, the summary
    rejects the three-entry map, and no latency observation is recorded:
    the handler panics with an empty summary. *)
Theorem PUT_records_no_latency :
  (key put_k clk0 w0).1 = Panicked ∧
  httpRequestsSummary (key put_k clk0 w0).2 = [] ∧
  prometheus.With httpRequestsSummary_labels
    (<["status" := "405"]> (labels_entry "PUT")) = None.
Proof. vm_compute. done. Qed.

(** C5, on the code: a DELETE of /key/a on a store whose [Delete] returns
    no error makes two calls of [Store.Delete], not one. *)
Theorem DELETE_calls_Delete_twice :
  getKey delete_a = "a" ∧
  (Store_Delete demo_store "a" (store_state w0)).1 = None ∧
  store_calls (key delete_a clk0 w0).2 = [CallDelete "a"; CallDelete "a"] ∧
  response_status (resp (key delete_a clk0 w0).2) = StatusOK.
Proof. vm_compute. done. Qed.

(** A POST of three entries, the second of which the store refuses: the
    entry visited first is applied and stays, the refused one ends the
    loop, and the third is never passed to the store. *)
Example run_post_three :
  demo_range (demo_Decode (Body post_three)).1
  = [("z", "3"); ("locked", "2"); ("x", "1")] ∧
  store_calls (key post_three clk0 w0).2
  = [CallSet "z" "3"; CallSet "locked" "2"] ∧
  map_to_list (kv (store_state (key post_three clk0 w0).2))
  = [("a", "1"); ("z", "3")] ∧
  response_status (resp (key post_three clk0 w0).2) = StatusInternalServerError.
Proof. vm_compute. done. Qed.


Lemma join_request_witness :
  store_calls (serve post_join clk0 w0).2 = [CallJoin "n1" "h:1"] ∧
  response_status (resp (serve post_join clk0 w0).2) = StatusOK.
Proof.
  destruct (join_request demo_store demo_Decode demo_Marshal demo_range
              post_join clk0 w0 (demo_Decode (Body post_join)).1 None
              eq_refl eq_refl eq_refl)
    as (_ & Hok).
  destruct (Hok "h:1" "n1" None
              (mkState (kv leader0) true [("n1", "h:1")])
              eq_refl ltac:(vm_compute; reflexivity)
              ltac:(vm_compute; reflexivity) ltac:(vm_compute; reflexivity)
              ltac:(vm_compute; reflexivity))
    as (Hcalls & _ & _ & _ & Hst).
  split; [exact Hcalls|exact (Hst eq_refl)].
Defined.

Lemma ServeHTTP_routes_witness :
  response_status (resp (serve get_unknown clk0 w0).2) = StatusNotFound ∧
  store_calls (serve get_unknown clk0 w0).2 = [] ∧
  httpErrorsCounter (serve get_unknown clk0 w0).2 = [] ∧
  httpRequestsSummary (serve get_unknown clk0 w0).2 = [].
Proof.
  destruct (ServeHTTP_routes demo_store demo_Decode demo_Marshal demo_range
              get_unknown clk0 w0)
    as (_ & _ & _ & _ & H404).
  destruct H404 as (_ & Hst & _ & Hcalls & _ & Herr & Hsum);
    [ intros [rest Hrest]; discriminate
    | discriminate | discriminate | reflexivity | ].
  repeat split; assumption.
Defined.

(** A service on a free port: nil listener, then bound by [Start]. *)
Example run_start :
  Addr demo_Listener_Addr (New ":11000" demo_store) = Panics ∧
  (start (New ":11000" demo_store) process0).1.1 = Returns None ∧
  Addr demo_Listener_Addr (start (New ":11000" demo_store) process0).1.2
  = Returns ":11000".
Proof. vm_compute. done. Qed.


End Runs.

(** * More of the code *)

(** ** Paths, segments and keys *)

Section Segments.

Variable c : ascii.

Lemma Split1_not_nil s : strings.Split1 c s ≠ [].
Proof.
  destruct s as [|a s]; simpl; [done|].
  destruct (Ascii.eqb a c); [done|].
  by destruct (strings.Split1 c s).
Qed.

(** A string without the separator is its own single segment. *)
Lemma Split1_free s : has_byte c s = false → strings.Split1 c s = [s].
Proof.
  induction s as [|a s IH]; simpl; [done|].
  intros H. apply orb_false_iff in H as [Ha Hs].
  rewrite Ha, (IH Hs). done.
Qed.

(** The first separator ends the first segment. *)
Lemma Split1_first a rest :
  has_byte c a = false →
  strings.Split1 c (a +:+ String c rest) = a :: strings.Split1 c rest.
Proof.
  induction a as [|x a IH]; simpl.
  - intros _. by rewrite Ascii.eqb_refl.
  - intros H. apply orb_false_iff in H as [Hx Ha].
    rewrite Hx, (IH Ha). done.
Qed.

(** A string with the separator has two segments at least. *)
Lemma Split1_two s :
  has_byte c s = true → (2 ≤ length (strings.Split1 c s))%nat.
Proof.
  induction s as [|a s IH]; simpl; [done|].
  destruct (Ascii.eqb a c); simpl.
  - intros _. pose proof (Split1_not_nil s).
    destruct (strings.Split1 c s); [done|simpl; lia].
  - intros H. specialize (IH H).
    destruct (strings.Split1 c s); simpl in *; lia.
Qed.

(** No segment holds the separator. *)
Lemma Split1_segments_free s :
  Forall (λ x, has_byte c x = false) (strings.Split1 c s).
Proof.
  induction s as [|a s IH]; simpl.
  - by repeat constructor.
  - destruct (Ascii.eqb a c) eqn:Ha; [by constructor|].
    destruct (strings.Split1 c s) as [|h t]; [by repeat constructor; simpl; rewrite Ha|].
    inversion IH as [|? ? Hh Ht]; subst.
    constructor; [simpl; by rewrite Ha, Hh|done].
Qed.

(** Joining the segments gives the string back. *)
Lemma join_Split1 s :
  join_segments (String c EmptyString) (strings.Split1 c s) = s.
Proof.
  induction s as [|a s IH]; simpl; [done|].
  pose proof (Split1_not_nil s) as Hne.
  destruct (Ascii.eqb_spec a c) as [->|Hac].
  - destruct (strings.Split1 c s) as [|h t]; [done|].
    simpl in *. by rewrite IH.
  - destruct (strings.Split1 c s) as [|h [|h' t]]; [done| |]; simpl in *;
      by rewrite <- IH.
Qed.

End Segments.

Section Keys.

Context {B : Type}.

Lemma Split_slash s : strings.Split s "/" = strings.Split1 slash s.
Proof. reflexivity. Qed.

Lemma Split_three a b k :
  has_byte slash a = false →
  has_byte slash b = false →
  has_byte slash k = false →
  strings.Split (a +:+ "/" +:+ b +:+ "/" +:+ k) "/" = [a; b; k].
Proof.
  intros Ha Hb Hk. rewrite Split_slash.
  change (a +:+ "/" +:+ b +:+ "/" +:+ k)
    with (a +:+ String slash (b +:+ String slash k)).
  rewrite Split1_first by done. rewrite Split1_first by done.
  by rewrite Split1_free.
Qed.

(** X1. The key of a request is the third of exactly three segments of
    its path: a non-empty [k] is the key exactly when the path is
    a/b/k with no slash in [a], [b] and [k].  The first two segments are
    not looked at. *)
Theorem getKey_three_segments (r : Request B) k :
  getKey r = k ∧ k ≠ EmptyString
  ↔ k ≠ EmptyString ∧
    ∃ a b, URL_Path r = a +:+ "/" +:+ b +:+ "/" +:+ k ∧
           has_byte slash a = false ∧
           has_byte slash b = false ∧
           has_byte slash k = false.
Proof.
  split.
  - intros [Hk Hne]. split; [done|]. unfold getKey in Hk.
    pose proof (join_Split1 slash (URL_Path r)) as Hjoin.
    pose proof (Split1_segments_free slash (URL_Path r)) as Hfree.
    rewrite Split_slash in Hk.
    destruct (strings.Split1 slash (URL_Path r)) as [|a [|b [|k' [|? ?]]]];
      simpl in Hk; try congruence.
    subst k'. exists a, b. simpl in Hjoin.
    inversion Hfree as [|? ? Ha Hf1]; subst.
    inversion Hf1 as [|? ? Hb Hf2]; subst.
    inversion Hf2 as [|? ? Hk' _]; subst.
    by rewrite <- Hjoin.
  - intros (Hne & a & b & Hp & Ha & Hb & Hk). split; [|done].
    unfold getKey. rewrite Hp, Split_three by done. done.
Qed.

(** X2. Under the prefix /key/ a key comes back as it was written when it
    holds no slash, the empty key included; a key with a slash in it
    cannot be addressed: the request has no key. *)
Theorem getKey_under_prefix (method : string) (k : string) (body : B) :
  getKey (mkRequest method ("/key/" +:+ k) body)
  = if has_byte slash k then EmptyString else k.
Proof.
  unfold getKey. simpl URL_Path. rewrite Split_slash.
  change ("/key/" +:+ k)
    with (EmptyString +:+ String slash ("key" +:+ String slash k)).
  rewrite Split1_first by done. rewrite Split1_first by done.
  destruct (has_byte slash k) eqn:Hk.
  - apply Split1_two in Hk.
    destruct (strings.Split1 slash k) as [|x [|y t]]; simpl in *; [lia|lia|done].
  - by rewrite Split1_free.
Qed.

End Keys.

(** ** What a key request does to the response and to the error counter *)

Ltac one_of :=
  solve [ repeat first [ done | left; done | right ] ].

Section KeyEffects.

Context {error S B : Type}.
Variable store : Store error S.
Variable json_Decode : B → gmap string string * option error.
Variable json_Marshal : gmap string string → string * option error.
Variable range_order : gmap string string → list (string * string).

Local Abbreviation handleKey :=
  (handleKeyRequest store json_Decode json_Marshal range_order).
Local Abbreviation serveHTTP :=
  (ServeHTTP store json_Decode json_Marshal range_order).

Ltac effects codes body :=
  exists codes, body; simpl; rewrite <- ?app_assoc;
  split; [reflexivity|];
  split; [rewrite ?app_nil_r; reflexivity|];
  split; [one_of|];
  split; [one_of|];
  split; [intros Hbody; first [done | one_of]|];
  split; [by split|];
  try done.

(** The codes a key request passes to [WriteHeader], in order, and the
    body it writes, if any.  Each code is counted once, under
    (/key, method, code), in the same order.  The handler returns when it
    passed no code and panics when it passed one. *)
Lemma handleKey_effects r clk (w : World S) :
  ∃ (codes : list Z) (body : option string),
    resp (handleKey r clk w).2
    = (match body with
       | Some b => rw_WriteString b
       | None => λ rw, rw
       end) (foldl (λ rw code, rw_WriteHeader code rw) (resp w) codes) ∧
    httpErrorsCounter (handleKey r clk w).2
    = httpErrorsCounter w
        ++ map (λ code, ["/key"; Method r; Sprint code]) codes ∧
    (codes = [] ∨ codes = [StatusBadRequest]
     ∨ codes = [StatusMethodNotAllowed]
     ∨ codes = [StatusInternalServerError]
     ∨ codes = [StatusBadRequest; StatusInternalServerError]) ∧
    (body = None ∨ Method r = "GET") ∧
    (body ≠ None → codes = [] ∨ codes = [StatusBadRequest]) ∧
    ((handleKey r clk w).1 = Returned ↔ codes = []) ∧
    (codes = [StatusMethodNotAllowed] →
       Method r ≠ "GET" ∧ Method r ≠ "POST" ∧ Method r ≠ "DELETE").
Proof.
  destruct (String.eqb_spec (Method r) "GET") as [HG|HG];
    [|destruct (String.eqb_spec (Method r) "POST") as [HP|HP];
      [|destruct (String.eqb_spec (Method r) "DELETE") as [HD|HD]]].
  - rewrite HG.
    destruct (Store_Get store (getKey r) (store_state w)) as [[v [e|]] s1] eqn:Hget.
    + rewrite (handleKey_GET_Get_error _ _ _ _ r clk w v e s1 HG Hget).
      unfold before_Get. destruct (String.eqb _ EmptyString).
      * effects [StatusBadRequest; StatusInternalServerError] (@None string).
      * effects [StatusInternalServerError] (@None string).
    + destruct (json_Marshal {[ getKey r := v ]}) as [b [e|]] eqn:Hm.
      * rewrite (handleKey_GET_Marshal_error _ _ _ _ r clk w v s1 b e HG Hget Hm).
        unfold before_Get. destruct (String.eqb _ EmptyString).
        -- effects [StatusBadRequest; StatusInternalServerError] (@None string).
        -- effects [StatusInternalServerError] (@None string).
      * destruct (decide (getKey r = EmptyString)) as [Hk|Hk].
        -- rewrite Hk in Hget, Hm.
           rewrite (handleKey_GET_no_key_ok _ _ _ _ r clk w v s1 b HG Hk Hget Hm).
           effects [StatusBadRequest] (Some b).
        -- rewrite (handleKey_GET_key_ok _ _ _ _ r clk w v s1 b HG Hk Hget Hm).
           effects (@nil Z) (Some b).
  - rewrite HP.
    destruct (json_Decode (Body r)) as [m [e|]] eqn:Hdec.
    + rewrite (handleKey_POST_Decode_error _ _ _ _ r clk w m e HP Hdec).
      effects [StatusBadRequest] (@None string).
    + destruct (sets_total store (range_order m) (store_state w))
        as [(s' & Hok)|(ok & k & v & rest & e & s1 & s2 & Hl & Hok & Hbad)].
      * rewrite (handleKey_POST_all_set _ _ _ _ r clk w m s' HP Hdec Hok).
        effects (@nil Z) (@None string).
      * rewrite (handleKey_POST_Set_error _ _ _ _ r clk w m ok k v rest e s1 s2
                   HP Hdec Hl Hok Hbad).
        effects [StatusInternalServerError] (@None string).
  - rewrite HD.
    destruct (decide (getKey r = EmptyString)) as [Hk|Hk].
    + rewrite (handleKey_DELETE_no_key _ _ _ _ r clk w HD Hk).
      effects [StatusBadRequest] (@None string).
    + destruct (Store_Delete store (getKey r) (store_state w)) as [[e|] s1] eqn:Hdel.
      * rewrite (handleKey_DELETE_error _ _ _ _ r clk w e s1 HD Hk Hdel).
        effects [StatusInternalServerError] (@None string).
      * destruct (Store_Delete store (getKey r) s1) as [err2 s2] eqn:Hdel2.
        rewrite (handleKey_DELETE_ok _ _ _ _ r clk w s1 err2 s2 HD Hk Hdel Hdel2).
        effects (@nil Z) (@None string).
  - rewrite (handleKey_other _ _ _ _ r clk w HG HP HD).
    effects [StatusMethodNotAllowed] (@None string).
Qed.

Lemma header_calls_WriteHeaders codes rw :
  header_calls (foldl (λ rw code, rw_WriteHeader code rw) rw codes)
  = header_calls rw ++ codes.
Proof.
  revert rw. induction codes as [|code codes IH]; intros rw; simpl.
  - by rewrite app_nil_r.
  - rewrite IH. unfold rw_WriteHeader.
    destruct (wroteHeader rw); simpl; by rewrite <- app_assoc.
Qed.

Lemma header_calls_body (body : option string) rw :
  header_calls ((match body with
                 | Some b => rw_WriteString b
                 | None => λ rw, rw
                 end) rw) = header_calls rw.
Proof.
  destruct body; [|done]. unfold rw_WriteString. by destruct (wroteHeader rw).
Qed.

(** X3. The error counter mirrors the response: the codes a key request
    passes to [WriteHeader] are, in the same order, the statuses under which
    it increments the error counter, each once and labelled with /key and
    the method of the request.  There are at most two of them, each 400,
    405 or 500. *)
Theorem key_errors_mirror_headers r clk (w : World S) :
  ∃ codes : list Z,
    header_calls (resp (handleKey r clk w).2)
    = header_calls (resp w) ++ codes ∧
    httpErrorsCounter (handleKey r clk w).2
    = httpErrorsCounter w
        ++ map (λ code, ["/key"; Method r; Sprint code]) codes ∧
    (length codes ≤ 2)%nat ∧
    Forall (λ code, code = 400 ∨ code = 405 ∨ code = 500) codes.
Proof.
  destruct (handleKey_effects r clk w)
    as (codes & body & Hresp & Herr & Hcodes & _).
  exists codes. rewrite Hresp, header_calls_body, header_calls_WriteHeaders.
  split; [done|]. split; [done|].
  destruct Hcodes as [->|[->|[->|[->| ->]]]]; simpl;
    (split; [lia|]); repeat constructor; one_of.
Qed.

(** X4. A key request answers 200 exactly when its handler returns, which
    is exactly when it counted no error; the latency of such a request is
    observed once, under (/key, method), as the difference of the two
    clock readings.  Every other key request counts an error, panics in
    its deferred closure and leaves the summary as it was. *)
Theorem key_request_200_iff_observed r clk (w : World S) :
  resp w = newResponse →
  let o := (handleKey r clk w).1 in
  let w' := (handleKey r clk w).2 in
  (response_status (resp w') = StatusOK ↔ o = Returned) ∧
  (httpErrorsCounter w' = httpErrorsCounter w ↔ o = Returned) ∧
  (o = Returned →
     httpRequestsSummary w'
     = httpRequestsSummary w
         ++ [(["/key"; Method r], wrap64 (t_exit clk - t_entry clk))]) ∧
  (o = Panicked → httpRequestsSummary w' = httpRequestsSummary w).
Proof.
  intros Hw o w'. subst o w'.
  destruct (handleKey_effects r clk w)
    as (codes & body & Hresp & Herr & Hcodes & _ & _ & Hret & _).
  split; [|split].
  - rewrite Hret, Hresp, Hw.
    destruct Hcodes as [->|[->|[->|[->| ->]]]]; destruct body; by split.
  - rewrite Hret, Herr. split.
    + destruct codes as [|code codes]; [done|]. simpl. intros H.
      by apply app_cons_neq in H.
    + intros ->. simpl. by rewrite app_nil_r.
  - destruct (handleKey_cases store json_Decode json_Marshal range_order r clk w)
      as [(w1 & -> & _ & Hs)|(w1 & x & more & -> & _ & Hs)]; simpl.
    + split; [by rewrite Hs|done].
    + by split.
Qed.

(** X5. A key request writes a body only when it is a GET, and never on a
    request it answers 405 or 500: when anything was written, the method
    is GET and the status is 200 or 400. *)
Theorem key_body_only_on_GET r clk (w : World S) :
  resp w = newResponse →
  let w' := (handleKey r clk w).2 in
  written (resp w') ≠ EmptyString →
  Method r = "GET" ∧
  (response_status (resp w') = StatusOK
   ∨ response_status (resp w') = StatusBadRequest).
Proof.
  intros Hw w'. subst w'.
  destruct (handleKey_effects r clk w)
    as (codes & body & Hresp & _ & Hcodes & Hget & Hbody & _).
  rewrite Hresp, Hw. destruct body as [b|].
  - intros _. destruct Hget as [?|HG]; [done|]. split; [done|].
    destruct Hbody as [->| ->]; [done| |]; simpl; [by left|by right].
  - destruct Hcodes as [->|[->|[->|[->| ->]]]]; simpl; done.
Qed.

End KeyEffects.

(** ** The other routes, and requests one after another *)

Section Routes.

Context {error S B : Type}.
Variable store : Store error S.
Variable json_Decode : B → gmap string string * option error.
Variable json_Marshal : gmap string string → string * option error.
Variable range_order : gmap string string → list (string * string).

Hypothesis range_order_perm : ∀ m, range_order m ≡ₚ map_to_list m.

Local Abbreviation handleKey :=
  (handleKeyRequest store json_Decode json_Marshal range_order).
Local Abbreviation serveHTTP :=
  (ServeHTTP store json_Decode json_Marshal range_order).

(** *** /status *)

Lemma handleStatus_run (r : Request B) (w : World S) st s' :
  Store_Status store (store_state w) = (st, s') →
  run_handler (handleStatus store r) w
  = (Returned, with_resp (rw_WriteString st) (after_call CallStatus s' w)).
Proof.
  intros HS. unfold run_handler, handleStatus, bind, store_Status.
  by rewrite HS.
Qed.

(** X6. A request on /status, whatever its method and body: the store is
    asked for its status once, the string it gives is the body of a 200
    response, byte for byte, and neither collector is touched. *)
Theorem status_request r clk (w : World S) st s' :
  URL_Path r = "/status" →
  resp w = newResponse →
  Store_Status store (store_state w) = (st, s') →
  let o := (serveHTTP r clk w).1 in
  let w' := (serveHTTP r clk w).2 in
  o = Returned ∧
  response_status (resp w') = StatusOK ∧
  written (resp w') = st ∧
  store_calls w' = store_calls w ++ [CallStatus] ∧
  store_state w' = s' ∧
  httpErrorsCounter w' = httpErrorsCounter w ∧
  httpRequestsSummary w' = httpRequestsSummary w.
Proof.
  intros Hp Hw HS o w'. subst o w'.
  rewrite (ServeHTTP_status store json_Decode json_Marshal range_order r clk w Hp).
  rewrite (handleStatus_run r w st s' HS). simpl. by rewrite Hw.
Qed.

(** *** /join *)

(** What the join handler passes to [WriteHeader]: nothing, 400 or 500.  It
    returns, and it leaves the collectors alone. *)
Lemma handleJoin_effects r (w : World S) :
  ∃ codes : list Z,
    (run_handler (handleJoin store json_Decode r) w).1 = Returned ∧
    resp (run_handler (handleJoin store json_Decode r) w).2
    = foldl (λ rw code, rw_WriteHeader code rw) (resp w) codes ∧
    (codes = [] ∨ codes = [StatusBadRequest]
     ∨ codes = [StatusInternalServerError]) ∧
    httpErrorsCounter (run_handler (handleJoin store json_Decode r) w).2
    = httpErrorsCounter w ∧
    httpRequestsSummary (run_handler (handleJoin store json_Decode r) w).2
    = httpRequestsSummary w.
Proof.
  unfold run_handler, handleJoin.
  destruct (json_Decode (Body r)) as [m [e|]];
    [by exists [StatusBadRequest]; simpl; auto 10|].
  destruct (negb (size m =? 2)%nat);
    [by exists [StatusBadRequest]; simpl; auto 10|].
  destruct (m !! "addr") as [a|];
    [|by exists [StatusBadRequest]; simpl; auto 10].
  destruct (m !! "id") as [i|];
    [|by exists [StatusBadRequest]; simpl; auto 10].
  unfold bind, store_Join.
  destruct (Store_Join store i a (store_state w)) as [[e|] s1].
  - exists [StatusInternalServerError]; simpl; auto 10.
  - exists []; simpl; auto 10.
Qed.

(** The decoded map passes the three tests of the join handler exactly
    when it is the map of the two entries "addr" and "id". *)
Lemma join_payload (m : gmap string string) a i :
  size m = 2%nat ∧ m !! "addr" = Some a ∧ m !! "id" = Some i
  ↔ m = <["addr" := a]> (<["id" := i]> ∅).
Proof.
  split.
  - intros (Hsz & Ha & Hi).
    rewrite <- (insert_delete_id m "addr" a Ha).
    assert (delete "addr" m !! "id" = Some i) as Hi'
      by (by rewrite lookup_delete_ne).
    rewrite <- (insert_delete_id (delete "addr" m) "id" i Hi').
    assert (size (delete "id" (delete "addr" m)) = 0%nat) as H0.
    { rewrite map_size_delete_Some by eauto.
      rewrite map_size_delete_Some by eauto. by rewrite Hsz. }
    apply map_size_empty_inv in H0. by rewrite H0.
  - intros ->. split; [|by simplify_map_eq].
    rewrite map_size_insert_None by (by simplify_map_eq).
    rewrite map_size_insert_None by apply lookup_empty.
    by rewrite map_size_empty.
Qed.

(** X7. The join handler calls [Store.Join] exactly for the bodies that
    decode to the two entries "addr" and "id" and nothing else, and then
    with the id first and the address second.  Every other body, one with
    a third field among them, is answered 400 with the store untouched. *)
Theorem join_exact_body r clk (w : World S) m derr :
  URL_Path r = "/join" →
  resp w = newResponse →
  json_Decode (Body r) = (m, derr) →
  let w' := (serveHTTP r clk w).2 in
  (∀ a i, derr = None → m = <["addr" := a]> (<["id" := i]> ∅) →
     store_calls w' = store_calls w ++ [CallJoin i a]) ∧
  ((∀ a i, ¬ (derr = None ∧ m = <["addr" := a]> (<["id" := i]> ∅))) →
     store_calls w' = store_calls w ∧
     store_state w' = store_state w ∧
     response_status (resp w') = StatusBadRequest).
Proof.
  intros Hp Hw HD w'. subst w'.
  rewrite (ServeHTTP_join store json_Decode json_Marshal range_order r clk w Hp).
  unfold run_handler, handleJoin. rewrite HD. split.
  - intros a i -> Hm. apply join_payload in Hm as (Hsz & Ha & Hi).
    rewrite Hsz, Ha, Hi. simpl. unfold bind, store_Join.
    destruct (Store_Join store i a (store_state w)) as [[e|] s1]; done.
  - intros Hnot. destruct derr as [e|]; [by simpl; rewrite Hw|].
    destruct (Nat.eqb_spec (size m) 2) as [Hsz|Hsz]; simpl;
      [|by rewrite Hw].
    destruct (m !! "addr") as [a|] eqn:Ha; [|by simpl; rewrite Hw].
    destruct (m !! "id") as [i|] eqn:Hi; [|by simpl; rewrite Hw].
    destruct (Hnot a i). split; [done|]. by apply join_payload.
Qed.

(** *** Routes that are not instrumented *)

(** X8. A request on a path that does not start with /key never panics
    and never touches a collector: no error is counted and no latency is
    observed for /join, /status and the paths answered 404. *)
Theorem other_routes_quiet r clk (w : World S) :
  ¬ (∃ rest, URL_Path r = "/key" +:+ rest) →
  (serveHTTP r clk w).1 = Returned ∧
  httpErrorsCounter (serveHTTP r clk w).2 = httpErrorsCounter w ∧
  httpRequestsSummary (serveHTTP r clk w).2 = httpRequestsSummary w.
Proof.
  intros Hk.
  destruct (decide (URL_Path r = "/join")) as [Hj|Hj];
    [|destruct (decide (URL_Path r = "/status")) as [Hs|Hs]].
  - rewrite (ServeHTTP_join store json_Decode json_Marshal range_order r clk w Hj).
    destruct (handleJoin_effects r w) as (codes & Ho & _ & _ & He & Hsum).
    done.
  - rewrite (ServeHTTP_status store json_Decode json_Marshal range_order r clk w Hs).
    destruct (Store_Status store (store_state w)) as [st s'] eqn:HS.
    by rewrite (handleStatus_run r w st s' HS).
  - by rewrite (ServeHTTP_not_found store json_Decode json_Marshal range_order
                  r clk w Hk Hj Hs).
Qed.

(** X9. The status of a response is 200, 400, 404, 405 or 500.  It is 404
    exactly for the paths that are neither under /key nor /join nor
    /status, and 405 only under /key, for a method other than GET, POST
    and DELETE. *)
Theorem response_status_codes r clk (w : World S) :
  resp w = newResponse →
  let st := response_status (resp (serveHTTP r clk w).2) in
  (st = 200 ∨ st = 400 ∨ st = 404 ∨ st = 405 ∨ st = 500) ∧
  (st = 404 ↔
     ¬ (∃ rest, URL_Path r = "/key" +:+ rest) ∧
     URL_Path r ≠ "/join" ∧ URL_Path r ≠ "/status") ∧
  (st = 405 →
     (∃ rest, URL_Path r = "/key" +:+ rest) ∧
     Method r ≠ "GET" ∧ Method r ≠ "POST" ∧ Method r ≠ "DELETE").
Proof.
  intros Hw st. subst st.
  destruct (strings.HasPrefix (URL_Path r) "/key") eqn:Hpre.
  - apply HasPrefix_spec in Hpre.
    rewrite (ServeHTTP_key store json_Decode json_Marshal range_order r clk w Hpre).
    destruct (handleKey_effects store json_Decode json_Marshal range_order r clk w)
      as (codes & body & Hresp & _ & Hcodes & _ & _ & _ & H405).
    rewrite Hresp, Hw.
    destruct Hcodes as [->|[->|[->|[->| ->]]]]; destruct body; simpl;
      (split; [one_of|]); (split; [split; [done|by intros [? _]]|]);
      try done; intros _; split; try done; by apply H405.
  - assert (¬ ∃ rest, URL_Path r = "/key" +:+ rest) as Hk.
    { intros H. apply HasPrefix_spec in H. congruence. }
    destruct (decide (URL_Path r = "/join")) as [Hj|Hj];
      [|destruct (decide (URL_Path r = "/status")) as [Hs|Hs]].
    + rewrite (ServeHTTP_join store json_Decode json_Marshal range_order r clk w Hj).
      destruct (handleJoin_effects r w) as (codes & _ & Hresp & Hcodes & _).
      rewrite Hresp, Hw.
      destruct Hcodes as [->|[->| ->]]; simpl;
        (split; [one_of|]); (split; [split; [done|by intros (_ & ? & _)]|]);
        done.
    + rewrite (ServeHTTP_status store json_Decode json_Marshal range_order r clk w Hs).
      destruct (Store_Status store (store_state w)) as [s0 s'] eqn:HS.
      rewrite (handleStatus_run r w s0 s' HS). simpl. rewrite Hw. simpl.
      (split; [one_of|]); (split; [split; [done|by intros (_ & _ & ?)]|]);
        done.
    + rewrite (ServeHTTP_not_found store json_Decode json_Marshal range_order
                 r clk w Hk Hj Hs).
      simpl. rewrite Hw. simpl.
      (split; [one_of|]); (split; [by split|]); done.
Qed.

(** *** POST *)

Lemma range_order_keys m : NoDup (range_order m).*1.
Proof.
  rewrite (range_order_perm m). apply NoDup_fst_map_to_list.
Qed.

Lemma range_order_entry m k v : (k, v) ∈ range_order m → m !! k = Some v.
Proof.
  rewrite (range_order_perm m). apply elem_of_map_to_list.
Qed.

Lemma range_order_length m : length (range_order m) = size m.
Proof.
  rewrite (range_order_perm m). apply length_map_to_list.
Qed.

(** X10. A POST whose body decodes writes nothing that is not in the
    body: every [Store.Set] it makes is for an entry of the decoded map,
    with the value the map has for that key, no key is set twice, and
    there are no more calls than entries. *)
Theorem key_POST_each_key_once r clk (w : World S) m :
  Method r = "POST" →
  json_Decode (Body r) = (m, None) →
  ∃ tried,
    store_calls (handleKey r clk w).2 = store_calls w ++ calls_Set tried ∧
    NoDup tried.*1 ∧
    (∀ k v, (k, v) ∈ tried → m !! k = Some v) ∧
    (length tried ≤ size m)%nat.
Proof.
  intros HM HD.
  destruct (sets_total store (range_order m) (store_state w))
    as [(s' & Hok)|(ok & k & v & rest & e & s1 & s2 & Hl & Hok & Hbad)].
  - exists (range_order m).
    rewrite (handleKey_POST_all_set _ _ _ _ r clk w m s' HM HD Hok). simpl.
    split; [done|]. split; [apply range_order_keys|].
    split; [apply range_order_entry|]. by rewrite range_order_length.
  - exists (ok ++ [(k, v)]).
    rewrite (handleKey_POST_Set_error _ _ _ _ r clk w m ok k v rest e s1 s2
               HM HD Hl Hok Hbad).
    simpl.
    assert (range_order m = (ok ++ [(k, v)]) ++ rest) as Hl'
      by (by rewrite <- app_assoc).
    split; [done|]. split; [|split].
    + pose proof (range_order_keys m) as Hnd.
      rewrite Hl', fmap_app in Hnd. by apply NoDup_app in Hnd as [? _].
    + intros k' v' Hin. apply range_order_entry. rewrite Hl'.
      apply elem_of_app. by left.
    + rewrite <- range_order_length, Hl'. rewrite !length_app. lia.
Qed.

(** X11. A POST whose body decodes to no entry at all is answered 200
    without a call on the store; no error is counted and its latency is
    observed. *)
Theorem key_POST_no_entries r clk (w : World S) :
  Method r = "POST" →
  resp w = newResponse →
  json_Decode (Body r) = (∅, None) →
  let o := (handleKey r clk w).1 in
  let w' := (handleKey r clk w).2 in
  o = Returned ∧
  response_status (resp w') = StatusOK ∧
  written (resp w') = EmptyString ∧
  store_calls w' = store_calls w ∧
  store_state w' = store_state w ∧
  httpErrorsCounter w' = httpErrorsCounter w ∧
  httpRequestsSummary w'
  = httpRequestsSummary w
      ++ [(["/key"; "POST"], wrap64 (t_exit clk - t_entry clk))].
Proof.
  intros HM Hw HD o w'. subst o w'.
  assert (range_order ∅ = []) as Hnil.
  { apply Permutation_nil_r. rewrite (range_order_perm ∅).
    by rewrite map_to_list_empty. }
  assert (sets_succeed store (range_order ∅) (store_state w) (store_state w))
    as Hok by (rewrite Hnil; constructor).
  rewrite (handleKey_POST_all_set _ _ _ _ r clk w ∅ (store_state w) HM HD Hok).
  simpl. rewrite Hnil, Hw. simpl. by rewrite app_nil_r.
Qed.

(** *** POST, then GET *)

(** X12. A POST of the one entry k: v that the store accepts, followed by
    a GET of /key/k, for a key with no slash in it, on a store that gives
    back the value it was set: both requests are answered 200, the body of
    the second is the encoding of {k: v}, the store was called twice, Set
    and then Get, no error is counted and two latencies are observed.  The
    path of the POST plays no part. *)
Theorem POST_then_GET post get clk1 clk2 (w : World S) k v s1 s2 b :
  Method post = "POST" →
  json_Decode (Body post) = ({[ k := v ]}, None) →
  Method get = "GET" →
  URL_Path get = "/key/" +:+ k →
  k ≠ EmptyString →
  has_byte slash k = false →
  resp w = newResponse →
  Store_Set store k v (store_state w) = (None, s1) →
  Store_Get store k s1 = ((v, None), s2) →
  json_Marshal {[ k := v ]} = (b, None) →
  let w1 := (handleKey post clk1 w).2 in
  let w2 := (handleKey get clk2 (next_request w1)).2 in
  response_status (resp w1) = StatusOK ∧
  response_status (resp w2) = StatusOK ∧
  written (resp w2) = b ∧
  store_calls w2 = store_calls w ++ [CallSet k v; CallGet k] ∧
  store_state w2 = s2 ∧
  httpErrorsCounter w2 = httpErrorsCounter w ∧
  httpRequestsSummary w2
  = httpRequestsSummary w
      ++ [(["/key"; "POST"], wrap64 (t_exit clk1 - t_entry clk1));
          (["/key"; "GET"], wrap64 (t_exit clk2 - t_entry clk2))].
Proof.
  intros HP HD HG Hpath Hk Hfree Hw Hset Hget Hm w1 w2. subst w1 w2.
  assert (range_order {[ k := v ]} = [(k, v)]) as Hone.
  { apply Permutation_singleton_r. rewrite (range_order_perm {[ k := v ]}).
    by rewrite map_to_list_singleton. }
  assert (sets_succeed store (range_order {[ k := v ]}) (store_state w) s1)
    as Hok by (rewrite Hone; econstructor; [done|constructor]).
  rewrite (handleKey_POST_all_set _ _ _ _ post clk1 w _ s1 HP HD Hok).
  rewrite Hone. simpl.
  assert (getKey get = k) as Hkey.
  { destruct get as [mt p body]. simpl in *. subst p.
    rewrite getKey_under_prefix. by rewrite Hfree. }
  set (w1 := next_request _).
  assert (Store_Get store (getKey get) (store_state w1) = ((v, None), s2))
    as Hget' by (by rewrite Hkey).
  assert (json_Marshal {[ getKey get := v ]} = (b, None))
    as Hm' by (by rewrite Hkey).
  assert (getKey get ≠ EmptyString) as Hk' by (by rewrite Hkey).
  rewrite (handleKey_GET_key_ok _ _ _ _ get clk2 w1 v s2 b HG Hk' Hget' Hm').
  rewrite Hkey. subst w1. simpl. rewrite Hw. simpl.
  by rewrite <- !app_assoc.
Qed.

(** *** DELETE *)

(** X13. A DELETE whose first [Store.Delete] returns no error is answered
    200 whatever the second call returns: the error of the second call is
    dropped, nothing is counted, and the store is left as the second call
    left it. *)
Theorem key_DELETE_second_error_dropped r clk (w : World S) s1 err2 s2 :
  Method r = "DELETE" →
  getKey r ≠ EmptyString →
  resp w = newResponse →
  Store_Delete store (getKey r) (store_state w) = (None, s1) →
  Store_Delete store (getKey r) s1 = (err2, s2) →
  let o := (handleKey r clk w).1 in
  let w' := (handleKey r clk w).2 in
  o = Returned ∧
  response_status (resp w') = StatusOK ∧
  written (resp w') = EmptyString ∧
  store_state w' = s2 ∧
  httpErrorsCounter w' = httpErrorsCounter w.
Proof.
  intros HM Hk Hw HD HD2 o w'. subst o w'.
  rewrite (handleKey_DELETE_ok _ _ _ _ r clk w s1 err2 s2 HM Hk HD HD2).
  simpl. by rewrite Hw.
Qed.

End Routes.

(** ** Starting twice, and the metrics endpoint *)

Section LifecycleMore.

Context {error Listener NetAddr Net St : Type}.
Variable net_Listen : string → string → Net → (Listener + error) * Net.

Local Abbreviation Svc := (Service (Listener := Listener) (St := St)).
Local Abbreviation Proc := (Process (Listener := Listener) (Net := Net)).




(** X15. The error [Start] returns is the error of [net.Listen] on the
    address of the service, and a [Start] that returns it has changed
    nothing but the network: the service is as it was, no pattern is
    registered and nothing is served. *)
Theorem Start_error_is_Listen_error (s s' : Svc) (p p' : Proc) e :
  Start net_Listen s p = (Returns (Some e), s', p') →
  net_Listen "tcp" (addr s) (net p) = (inr e, net p') ∧
  s' = s ∧
  DefaultServeMux p' = DefaultServeMux p ∧
  serving p' = serving p.
Proof.
  unfold Start. destruct (net_Listen "tcp" (addr s) (net p)) as [[l|err] n].
  - destruct (decide ("/" ∈ DefaultServeMux p)); intros H; inversion H.
  - intros H. by inversion H.
Qed.

(** X16. [Expose] registers /metrics once: in a process where the pattern
    is free, a second [Expose] panics and touches nothing, also when a
    [Start] came in between.  [Expose] does not register the pattern of
    [Start], so it does not make a later [Start] panic. *)
Theorem Expose_only_once (s : Svc) (p : Proc) :
  "/metrics" ∉ DefaultServeMux p →
  let p1 := (Expose net_Listen p).2 in
  let p2 := (Start net_Listen s p1).2 in
  Expose net_Listen p1 = (ExposePanics, p1) ∧
  Expose net_Listen p2 = (ExposePanics, p2) ∧
  ("/" ∈ DefaultServeMux p1 ↔ "/" ∈ DefaultServeMux p).
Proof.
  intros Hfree p1 p2.
  assert ("/metrics" ∈ DefaultServeMux p1 ∧
          ("/" ∈ DefaultServeMux p1 ↔ "/" ∈ DefaultServeMux p)) as [H1 Hslash].
  { subst p1. unfold Expose. rewrite decide_False by done.
    destruct (net_Listen "tcp" metricsPort (net p)) as [[l|err] n]; simpl;
      rewrite !elem_of_union, !elem_of_singleton;
      (split; [by left|split; [by intros [?|?]|by right]]). }
  assert ("/metrics" ∈ DefaultServeMux p2) as H2.
  { subst p2. unfold Start.
    destruct (net_Listen "tcp" (addr s) (net p1)) as [[l|err] n]; simpl;
      [destruct (decide ("/" ∈ DefaultServeMux p1)); simpl|]; try done.
    apply elem_of_union. by right. }
  split; [|split; [|done]]; unfold Expose; by rewrite decide_True.
Qed.

End LifecycleMore.

(** ** The added properties on concrete requests *)

Section MoreRuns.

Import Demo Demo2.

Local Abbreviation w0 := (world0 leader0).
Local Abbreviation demo_perm :=
  (λ m : gmap string string, reflexivity (map_to_list m)).

(** Keys: /key/a/b has no key, /keyfoo/z has the key z. *)
Example run_getKey :
  getKey (mkRequest "GET" "/key/a/b" (None : option (list (string * string))))
  = EmptyString ∧
  getKey (mkRequest "GET" "/keyfoo/z" (None : option (list (string * string))))
  = "z".
Proof. vm_compute. done. Qed.

Lemma key_request_200_iff_observed_witness :
  response_status (resp (key get_a clk0 w0).2) = StatusOK
  ↔ (key get_a clk0 w0).1 = Returned.
Proof.
  apply (key_request_200_iff_observed demo_store demo_Decode demo_Marshal
           demo_range get_a clk0 w0 eq_refl).
Defined.

Lemma key_body_only_on_GET_witness :
  Method get_a = "GET" ∧
  (response_status (resp (key get_a clk0 w0).2) = StatusOK
   ∨ response_status (resp (key get_a clk0 w0).2) = StatusBadRequest).
Proof.
  apply (key_body_only_on_GET demo_store demo_Decode demo_Marshal
           demo_range get_a clk0 w0 eq_refl).
  vm_compute. discriminate.
Defined.

Lemma status_request_witness :
  written (resp (serve get_status clk0 w0).2) = "Leader" ∧
  store_calls (serve get_status clk0 w0).2 = [CallStatus].
Proof.
  destruct (status_request demo_store demo_Decode demo_Marshal demo_range
              get_status clk0 w0 "Leader" leader0 eq_refl eq_refl eq_refl)
    as (_ & _ & Hbody & Hcalls & _).
  split; [exact Hbody|exact Hcalls].
Defined.

Lemma join_exact_body_witness :
  store_calls (serve post_join clk0 w0).2 = [CallJoin "n1" "h:1"].
Proof.
  destruct (join_exact_body demo_store demo_Decode demo_Marshal demo_range
              post_join clk0 w0 (demo_Decode (Body post_join)).1 None
              eq_refl eq_refl eq_refl)
    as (Hcall & _).
  apply (Hcall "h:1" "n1" eq_refl).
  vm_compute. reflexivity.
Defined.

Lemma other_routes_quiet_witness :
  (serve post_join clk0 w0).1 = Returned ∧
  httpErrorsCounter (serve post_join clk0 w0).2 = [] ∧
  httpRequestsSummary (serve post_join clk0 w0).2 = [].
Proof.
  apply (other_routes_quiet demo_store demo_Decode demo_Marshal demo_range
           post_join clk0 w0).
  intros [rest Hrest]. discriminate.
Defined.

Lemma response_status_codes_witness :
  (∃ rest, URL_Path put_k = "/key" +:+ rest) ∧
  Method put_k ≠ "GET" ∧ Method put_k ≠ "POST" ∧ Method put_k ≠ "DELETE".
Proof.
  destruct (response_status_codes demo_store demo_Decode demo_Marshal demo_range
              put_k clk0 w0 eq_refl)
    as (_ & _ & H405).
  apply H405. vm_compute. reflexivity.
Defined.

Lemma key_POST_each_key_once_witness :
  ∃ tried,
    store_calls (key post_three clk0 w0).2 = calls_Set tried ∧
    NoDup tried.*1.
Proof.
  destruct (key_POST_each_key_once demo_store demo_Decode demo_Marshal demo_range
              demo_perm post_three clk0 w0 (demo_Decode (Body post_three)).1
              eq_refl eq_refl)
    as (tried & Hcalls & Hnd & _).
  exists tried. split; [exact Hcalls|exact Hnd].
Defined.

Lemma key_POST_no_entries_witness :
  (key post_empty clk0 w0).1 = Returned ∧
  store_calls (key post_empty clk0 w0).2 = [].
Proof.
  destruct (key_POST_no_entries demo_store demo_Decode demo_Marshal demo_range
              demo_perm post_empty clk0 w0 eq_refl eq_refl eq_refl)
    as (Ho & _ & _ & Hcalls & _).
  split; [exact Ho|exact Hcalls].
Defined.

Lemma POST_then_GET_witness :
  written (resp (key get_b clk0 (next_request (key post_b clk0 w0).2)).2)
  = (demo_Marshal {[ "b" := "2" ]}).1 ∧
  store_calls (key get_b clk0 (next_request (key post_b clk0 w0).2)).2
  = [CallSet "b" "2"; CallGet "b"].
Proof.
  destruct (POST_then_GET demo_store demo_Decode demo_Marshal demo_range
              demo_perm post_b get_b clk0 clk0 w0 "b" "2"
              (mkState (<["b" := "2"]> (kv leader0)) true [])
              (mkState (<["b" := "2"]> (kv leader0)) true [])
              (demo_Marshal {[ "b" := "2" ]}).1
              eq_refl ltac:(vm_compute; reflexivity) eq_refl eq_refl
              ltac:(discriminate) eq_refl eq_refl
              ltac:(vm_compute; reflexivity) ltac:(vm_compute; reflexivity)
              ltac:(vm_compute; reflexivity))
    as (_ & _ & Hbody & Hcalls & _).
  split; [exact Hbody|exact Hcalls].
Defined.

Lemma key_DELETE_second_error_dropped_witness :
  (Store_Delete once_store "a" (mkState ∅ true [])).1 = Some "no such key" ∧
  response_status
    (resp (handleKeyRequest once_store demo_Decode demo_Marshal demo_range
             delete_a clk0 w0).2) = StatusOK.
Proof.
  split; [reflexivity|].
  apply (key_DELETE_second_error_dropped once_store demo_Decode demo_Marshal
           demo_range delete_a clk0 w0
           (mkState ∅ true []) (Some "no such key") (mkState ∅ true [])
           eq_refl ltac:(vm_compute; discriminate) eq_refl
           ltac:(vm_compute; reflexivity) ltac:(vm_compute; reflexivity)).
Defined.


Lemma Start_error_is_Listen_error_witness :
  (start (New ":11000" demo_store)
         (start (New ":11000" demo_store) process0).2).1.2
  = New ":11000" demo_store.
Proof.
  apply (Start_error_is_Listen_error demo_Listen
           (New ":11000" demo_store) _
           (start (New ":11000" demo_store) process0).2
           (start (New ":11000" demo_store)
                  (start (New ":11000" demo_store) process0).2).2
           "address already in use"
           ltac:(vm_compute; reflexivity)).
Defined.

Lemma Expose_only_once_witness :
  expose (expose process0).2 = (ExposePanics, (expose process0).2).
Proof.
  apply (Expose_only_once demo_Listen (New ":11000" demo_store) process0).
  vm_compute. done.
Defined.

End MoreRuns.
